(** * LTC5599 quadrature modulator driver: register codec and shadow cache

    A shallow embedding of [ltc5599.c].  Every C function of the driver that
    touches the register file is transcribed as a state-passing function over
    the driver instance, the SPI transport behind it and a trace of the
    transfers that were issued.  C integers are [Z] with the conversions to
    [u8], [unsigned int] and [int] written out.  The mutex held around each
    transfer is not modelled: a call runs to completion before the next. *)

From stdpp Require Import base list.
From Stdlib Require Import ZArith Lia.

Local Open Scope Z_scope.

(** ** Machine integers *)

(** Conversion to [uint8_t] / [u8] / [__u8]. *)
Definition u8 (x : Z) : Z := x mod 2 ^ 8.

(** Conversion to [unsigned int]. *)
Definition u32 (x : Z) : Z := x mod 2 ^ 32.

(** Conversion to [int] (two's complement, wrapping). *)
Definition s32 (x : Z) : Z := (x + 2 ^ 31) mod 2 ^ 32 - 2 ^ 31.

(** ** Register map (the [#define]s at the top of the driver) *)

Definition LTC5599_FREQ_REG : Z := 0x00.
Definition LTC5599_FREQ_VALUE (n : Z) : Z := Z.land n 0x7F.
Definition LTC5599_FREQ_MASK : Z := 0x7F.
Definition LTC5599_IQ_PHASEBAL_EXT_SIGN_BIT : Z := Z.shiftl 1 7.

Definition LTC5599_GAIN_REG : Z := 0x01.
Definition LTC5599_GAIN_VALUE (n : Z) : Z := Z.land n 0x1F.
Definition LTC5599_GAIN_MASK : Z := 0x1F.
Definition LTC5599_QDISABLE_BIT : Z := Z.shiftl 1 5.
Definition LTC5599_AGCTRL_BIT : Z := Z.shiftl 1 6.
Definition LTC5599_TEMPUPDT_BIT : Z := Z.shiftl 1 7.

Definition LTC5599_OFFSI_REG : Z := 0x02.
Definition LTC5599_OFFSQ_REG : Z := 0x03.
Definition LTC5599_OFFS_VALUE (n : Z) : Z := Z.land n 0xFF.

Definition LTC5599_IQ_GAINRAT_REG : Z := 0x04.
Definition LTC5599_IQ_GAINRAT_VALUE (n : Z) : Z := Z.land n 0xFF.

Definition LTC5599_IQ_PHASEBAL_REG : Z := 0x05.
Definition LTC5599_IQ_PHASEBAL_FINE_VALUE (n : Z) : Z := Z.land n 0x1F.
Definition LTC5599_IQ_PHASEBAL_FINE_MASK : Z := 0x1F.
Definition LTC5599_IQ_PHASEBAL_EXT_SHIFT : Z := 5.
Definition LTC5599_IQ_PHASEBAL_EXT_VALUE (n : Z) : Z :=
  Z.shiftl (Z.land n 0x07) LTC5599_IQ_PHASEBAL_EXT_SHIFT.
Definition LTC5599_IQ_PHASEBAL_EXT_MASK : Z :=
  Z.shiftl 0x07 LTC5599_IQ_PHASEBAL_EXT_SHIFT.

Definition LTC5599_LOMATCH_OVR_REG : Z := 0x06.
Definition LTC5599_TEMPCORR_OVR_REG : Z := 0x07.
Definition LTC5599_MODE_REG : Z := 0x08.
Definition LTC5599_RESET_BIT : Z := Z.shiftl 1 3.

Definition LTC5599_READ_OPERATION : Z := 0x01.

(** ** Kernel constants the driver uses

    These come from the kernel headers the driver includes
    ([errno-base.h], [iio/types.h]), not from the driver itself. *)

Definition EINVAL : Z := 22.
Definition IIO_VAL_INT : Z := 1.
Definition IIO_VAL_INT_PLUS_MICRO_DB : Z := 4.

(** The [info] selector of [read_raw] / [write_raw]: the five attributes the
    driver switches on, and every other value of the enumeration. *)
Inductive iio_chan_info_enum : Type :=
  | IIO_CHAN_INFO_OFFSET
  | IIO_CHAN_INFO_FREQUENCY
  | IIO_CHAN_INFO_HARDWAREGAIN
  | IIO_CHAN_INFO_QUADRATURE_CORRECTION_RAW
  | IIO_CHAN_INFO_PHASE
  | IIO_CHAN_INFO_other (n : Z).

(** The part of [struct iio_chan_spec] the driver reads. *)
Record iio_chan_spec : Type := LTC5599_CHANNEL' {
  channel : Z;
  address : Z
}.

Definition LTC5599_CHANNEL (chan : Z) : iio_chan_spec :=
  {| channel := chan; address := chan |}.

Definition ltc5599_channels : list iio_chan_spec :=
  [LTC5599_CHANNEL 0; LTC5599_CHANNEL 1].

(** ** Driver instance *)

(** [struct ltc5599]: the two-byte transfer buffer and the shadow copy of the
    register file.  The [spi] handle lives in [iio_dev] below. *)
Record ltc5599 : Type := Build_ltc5599 {
  data : list Z;
  shadowregs : list Z
}.

(** [st->shadowregs[i]] as an rvalue. *)
Definition shadow_get (st : ltc5599) (i : Z) : Z :=
  default 0 (shadowregs st !! Z.to_nat i).

(** [st->shadowregs[i] = v]. *)
Definition shadow_set (i v : Z) (st : ltc5599) : ltc5599 :=
  {| data := data st; shadowregs := <[Z.to_nat i := u8 v]> (shadowregs st) |}.

(** The array is declared [__u8 shadowregs[32]]. *)
Definition shadow_wf (st : ltc5599) : Prop := length (shadowregs st) = 32%nat.

(** ** SPI transport

    [spi_sync] is the kernel's blocking full-duplex transfer: it takes the
    bytes to send and answers with a status (0 on success) and the bytes
    clocked in. *)
Class SpiBus (B : Type) : Type :=
  spi_sync : B -> list Z -> Z * list Z * B.

(** One entry of the transfer trace: the bytes sent and the status. *)
Definition xfer : Type := (list Z * Z)%type.

Section Driver.

Context {B : Type} `{SpiBus B}.

(** [struct iio_dev] as far as the driver sees it: the private data
    ([iio_priv]), the SPI device, and the trace of transfers issued so far. *)
Record iio_dev : Type := Build_iio_dev {
  priv : ltc5599;
  spi : B;
  wire : list xfer
}.

Definition M (A : Type) : Type := iio_dev -> A * iio_dev.

Definition ret {A} (a : A) : M A := fun d => (a, d).

Definition bind {A C} (m : M A) (k : A -> M C) : M C :=
  fun d => let '(a, d') := m d in k a d'.

Definition modify_priv (f : ltc5599 -> ltc5599) : M unit :=
  fun d => (tt, {| priv := f (priv d); spi := spi d; wire := wire d |}).

Definition get_priv : M ltc5599 := fun d => (priv d, d).

End Driver.

Arguments iio_dev B : clear implicits.
Arguments M B A : clear implicits.

Notation "'do' x <- m ; k" := (bind m (fun x => k))
  (at level 10, x name, m at level 100, k at level 200, only parsing).

Section Access.

Context {B : Type} `{SpiBus B}.

(** [spi_read_while_write]: one full-duplex transfer of [n_trx] bytes.
    [rxbuf] is [None] for a [NULL] receive buffer. *)
Definition spi_read_while_write (txbuf : list Z) (rxbuf : option (list Z))
    (n_trx : Z) : M B (Z * option (list Z)) :=
  fun d =>
    if n_trx =? 0 then ((0, rxbuf), d)
    else
      let tx := take (Z.to_nat n_trx) txbuf in
      let '(status, rx, b') := spi_sync (spi d) tx in
      ((status, match rxbuf with Some _ => Some rx | None => None end),
       {| priv := priv d; spi := b'; wire := wire d ++ [(tx, status)] |}).

(** [ltc5599_write]: address shifted left by one with the read bit clear,
    then the payload. *)
Definition ltc5599_write (addr val : Z) : M B Z :=
  let addr := u8 addr in
  let val := u8 val in
  let buf :=
    [u8 (Z.land (Z.shiftl (Z.land addr 0x7F) 1) (Z.lnot LTC5599_READ_OPERATION));
     u8 (Z.land val 0xFF)] in
  do _ <- modify_priv (fun st => {| data := buf; shadowregs := shadowregs st |});
  do r <- spi_read_while_write buf None 2;
  ret r.1.

(** [ltc5599_read]: [val] is the current content of [*val]; the result
    carries the status and the new content. *)
Definition ltc5599_read (addr : Z) (val : Z) : M B (Z * Z) :=
  let addr := u8 addr in
  let buf :=
    [u8 (Z.lor (Z.shiftl (Z.land addr 0x7F) 1) LTC5599_READ_OPERATION); 0xFF] in
  do _ <- modify_priv (fun st => {| data := buf; shadowregs := shadowregs st |});
  do r <- spi_read_while_write buf (Some [0; 0]) 2;
  let tmp := default [] r.2 in
  if r.1 <? 0 then ret (r.1, val)
  else ret (r.1, u8 (nth 1 tmp 0)).

End Access.

(** ** Frequency to tuning word

    [freq_to_ctrl_word]: the calibration table of the driver, one strict
    comparison per tuning word, highest threshold first. *)
Definition freq_to_ctrl_word (freq_in_khz : Z) : Z :=
  if freq_in_khz >? 1249100 then 1
  else if freq_in_khz >? 1248600 then 2
  else if freq_in_khz >? 1238100 then 3
  else if freq_in_khz >? 1214100 then 4
  else if freq_in_khz >? 1191200 then 5
  else if freq_in_khz >? 1165600 then 6
  else if freq_in_khz >? 1141000 then 7
  else if freq_in_khz >? 1120600 then 8
  else if freq_in_khz >? 1100500 then 9
  else if freq_in_khz >? 1069500 then 10
  else if freq_in_khz >? 1039599 then 11
  else if freq_in_khz >? 1023100 then 12
  else if freq_in_khz >? 1007100 then 13
  else if freq_in_khz >? 988300 then 14
  else if freq_in_khz >? 961800 then 15
  else if freq_in_khz >? 941300 then 16
  else if freq_in_khz >? 921500 then 17
  else if freq_in_khz >? 895200 then 18
  else if freq_in_khz >? 877600 then 19
  else if freq_in_khz >? 863600 then 20
  else if freq_in_khz >? 843200 then 21
  else if freq_in_khz >? 826900 then 22
  else if freq_in_khz >? 807000 then 23
  else if freq_in_khz >? 792300 then 24
  else if freq_in_khz >? 772200 then 25
  else if freq_in_khz >? 752700 then 26
  else if freq_in_khz >? 734000 then 27
  else if freq_in_khz >? 724200 then 28
  else if freq_in_khz >? 704600 then 29
  else if freq_in_khz >? 688700 then 30
  else if freq_in_khz >? 673200 then 31
  else if freq_in_khz >? 655200 then 32
  else if freq_in_khz >? 638100 then 33
  else if freq_in_khz >? 624600 then 34
  else if freq_in_khz >? 611900 then 35
  else if freq_in_khz >? 598400 then 36
  else if freq_in_khz >? 585100 then 37
  else if freq_in_khz >? 573900 then 38
  else if freq_in_khz >? 563100 then 39
  else if freq_in_khz >? 548100 then 40
  else if freq_in_khz >? 538100 then 41
  else if freq_in_khz >? 529100 then 42
  else if freq_in_khz >? 518500 then 43
  else if freq_in_khz >? 507000 then 44
  else if freq_in_khz >? 497700 then 45
  else if freq_in_khz >? 488000 then 46
  else if freq_in_khz >? 471500 then 47
  else if freq_in_khz >? 457700 then 48
  else if freq_in_khz >? 448700 then 49
  else if freq_in_khz >? 437400 then 50
  else if freq_in_khz >? 426600 then 51
  else if freq_in_khz >? 417500 then 52
  else if freq_in_khz >? 407500 then 53
  else if freq_in_khz >? 398000 then 54
  else if freq_in_khz >? 390100 then 55
  else if freq_in_khz >? 382800 then 56
  else if freq_in_khz >? 376600 then 57
  else if freq_in_khz >? 369800 then 58
  else if freq_in_khz >? 353100 then 59
  else if freq_in_khz >? 339000 then 60
  else if freq_in_khz >? 332600 then 61
  else if freq_in_khz >? 327200 then 62
  else if freq_in_khz >? 320600 then 63
  else if freq_in_khz >? 313700 then 64
  else if freq_in_khz >? 309100 then 65
  else if freq_in_khz >? 304500 then 66
  else if freq_in_khz >? 288100 then 67
  else if freq_in_khz >? 278300 then 68
  else if freq_in_khz >? 274200 then 69
  else if freq_in_khz >? 270300 then 70
  else if freq_in_khz >? 266000 then 71
  else if freq_in_khz >? 261899 then 72
  else if freq_in_khz >? 258200 then 73
  else if freq_in_khz >? 254100 then 74
  else if freq_in_khz >? 243600 then 75
  else if freq_in_khz >? 233800 then 76
  else if freq_in_khz >? 230800 then 77
  else if freq_in_khz >? 228000 then 78
  else if freq_in_khz >? 220200 then 79
  else if freq_in_khz >? 212600 then 80
  else if freq_in_khz >? 210000 then 81
  else if freq_in_khz >? 207600 then 82
  else if freq_in_khz >? 202100 then 83
  else if freq_in_khz >? 196200 then 84
  else if freq_in_khz >? 193700 then 85
  else if freq_in_khz >? 191200 then 86
  else if freq_in_khz >? 186600 then 87
  else if freq_in_khz >? 182000 then 88
  else if freq_in_khz >? 179400 then 89
  else if freq_in_khz >? 176000 then 90
  else if freq_in_khz >? 170100 then 91
  else if freq_in_khz >? 165000 then 92
  else if freq_in_khz >? 162500 then 93
  else if freq_in_khz >? 160000 then 94
  else if freq_in_khz >? 156700 then 95
  else if freq_in_khz >? 153600 then 96
  else if freq_in_khz >? 151100 then 97
  else if freq_in_khz >? 148600 then 98
  else if freq_in_khz >? 142500 then 99
  else if freq_in_khz >? 139600 then 100
  else if freq_in_khz >? 136500 then 101
  else if freq_in_khz >? 134300 then 102
  else if freq_in_khz >? 131200 then 103
  else if freq_in_khz >? 128100 then 104
  else if freq_in_khz >? 126000 then 105
  else if freq_in_khz >? 123800 then 106
  else if freq_in_khz >? 121300 then 107
  else if freq_in_khz >? 118300 then 108
  else if freq_in_khz >? 115700 then 109
  else if freq_in_khz >? 113500 then 110
  else if freq_in_khz >? 111300 then 111
  else if freq_in_khz >? 109500 then 112
  else if freq_in_khz >? 107600 then 113
  else if freq_in_khz >? 105600 then 114
  else if freq_in_khz >? 103000 then 115
  else if freq_in_khz >? 100300 then 116
  else if freq_in_khz >? 98500 then 117
  else if freq_in_khz >? 96600 then 118
  else if freq_in_khz >? 94700 then 119
  else if freq_in_khz >? 93000 then 120
  else 121.

(** Conversion to [long long]. *)
Definition s64 (x : Z) : Z := (x + 2 ^ 63) mod 2 ^ 64 - 2 ^ 63.

(** [if (ret)]: a status is an error as soon as it is not zero. *)
Definition failed (r : Z) : bool := negb (r =? 0).

Section Codec.

Context {B : Type} `{SpiBus B}.

(** ** Frequency register *)

Definition ltc5599_write_freq (val : Z) : M B Z :=
  do st <- get_priv;
  let tmp := u8 (shadow_get st LTC5599_FREQ_REG) in
  let tmp :=
    u8 (Z.lor (Z.land tmp (Z.lnot LTC5599_FREQ_MASK)) (LTC5599_FREQ_VALUE val)) in
  do r <- ltc5599_write LTC5599_FREQ_REG tmp;
  if failed r then ret r
  else
    do _ <- modify_priv (shadow_set LTC5599_FREQ_REG tmp);
    ret 0.

Definition ltc5599_read_freq (val : Z) : M B (Z * Z) :=
  do r <- ltc5599_read LTC5599_FREQ_REG 0;
  if failed r.1 then ret (r.1, val)
  else
    do _ <- modify_priv (shadow_set LTC5599_FREQ_REG r.2);
    do st <- get_priv;
    ret (0, Z.land (shadow_get st LTC5599_FREQ_REG) LTC5599_FREQ_MASK).

(** ** Gain register *)

Definition ltc5599_write_gain (val : Z) : M B Z :=
  do st <- get_priv;
  let tmp := u8 (shadow_get st LTC5599_GAIN_REG) in
  let tmp :=
    u8 (Z.lor (Z.land tmp (Z.lnot LTC5599_GAIN_MASK)) (LTC5599_GAIN_VALUE val)) in
  do r <- ltc5599_write LTC5599_GAIN_REG tmp;
  if failed r then ret r
  else
    do _ <- modify_priv (shadow_set LTC5599_GAIN_REG tmp);
    ret 0.

Definition ltc5599_read_gain (val : Z) : M B (Z * Z) :=
  do r <- ltc5599_read LTC5599_GAIN_REG 0;
  if failed r.1 then ret (r.1, val)
  else
    do _ <- modify_priv (shadow_set LTC5599_GAIN_REG r.2);
    do st <- get_priv;
    ret (0, Z.land (shadow_get st LTC5599_GAIN_REG) LTC5599_GAIN_MASK).

(** ** Offset registers, one per channel *)

Definition ltc5599_write_offset (chan : Z) (val : Z) : M B Z :=
  if chan >? 1 then ret (- EINVAL)
  else
    let val := if val >? 127 then 127 else val in
    let val := if val <? -127 then -127 else val in
    let val := s32 (val + 128) in
    let tmp := u8 (LTC5599_OFFS_VALUE val) in
    do r <- ltc5599_write (LTC5599_OFFSI_REG + chan) tmp;
    if failed r then ret r
    else
      do _ <- modify_priv (shadow_set (LTC5599_OFFSI_REG + chan) tmp);
      ret 0.

Definition ltc5599_read_offset (chan : Z) (val : Z) : M B (Z * Z) :=
  if chan >? 1 then ret (- EINVAL, val)
  else
    do r <- ltc5599_read (LTC5599_OFFSI_REG + chan) 0;
    if failed r.1 then ret (r.1, val)
    else
      do _ <- modify_priv (shadow_set (LTC5599_OFFSI_REG + chan) r.2);
      do st <- get_priv;
      let val := shadow_get st (LTC5599_OFFSI_REG + chan) in
      let val := s32 (val - 128) in
      ret (0, val).

(** ** Quadrature gain ratio *)

Definition ltc5599_write_iqgainratio (val : Z) : M B Z :=
  let tmp := u8 (LTC5599_IQ_GAINRAT_VALUE val) in
  let tmp := u8 (Z.lxor tmp 0x80) in
  do r <- ltc5599_write LTC5599_IQ_GAINRAT_REG tmp;
  if failed r then ret r
  else
    do _ <- modify_priv (shadow_set LTC5599_IQ_GAINRAT_REG tmp);
    ret 0.

Definition ltc5599_read_iqgainratio (val : Z) : M B (Z * Z) :=
  do r <- ltc5599_read LTC5599_IQ_GAINRAT_REG 0;
  if failed r.1 then ret (r.1, val)
  else
    do _ <- modify_priv (shadow_set LTC5599_IQ_GAINRAT_REG r.2);
    do st <- get_priv;
    let val := shadow_get st LTC5599_IQ_GAINRAT_REG in
    let val := s32 (val - 128) in
    ret (0, val).

(** ** Phase balance: fine and coarse fields in the phase register, sign in
    bit 7 of the frequency register *)

Definition ltc5599_write_iqphasebalance (val : Z) : M B Z :=
  do st <- get_priv;
  let tmp2 := u8 (shadow_get st LTC5599_FREQ_REG) in
  let tmp2 :=
    if val <? -16
    then u8 (Z.land tmp2 (Z.lnot LTC5599_IQ_PHASEBAL_EXT_SIGN_BIT))
    else u8 (Z.lor tmp2 LTC5599_IQ_PHASEBAL_EXT_SIGN_BIT) in
  let coarse :=
    if val >? 0
    then Z.quot (s32 (val + 16)) 32
    else Z.quot (s32 (15 - val)) 32 in
  let tmp1 :=
    u8 (Z.lor (LTC5599_IQ_PHASEBAL_EXT_VALUE coarse)
              (LTC5599_IQ_PHASEBAL_FINE_VALUE (Z.lxor (Z.land val 0x1F) 0x10))) in
  do r <- ltc5599_write LTC5599_IQ_PHASEBAL_REG tmp1;
  if failed r then ret r
  else
    do _ <- modify_priv (shadow_set LTC5599_IQ_PHASEBAL_REG tmp1);
    do r <- ltc5599_write LTC5599_FREQ_REG tmp2;
    if failed r then ret r
    else
      do _ <- modify_priv (shadow_set LTC5599_FREQ_REG tmp2);
      ret 0.

Definition ltc5599_read_iqphasebalance (val : Z) : M B (Z * Z) :=
  do r <- ltc5599_read LTC5599_FREQ_REG 0;
  if failed r.1 then ret (r.1, val)
  else
    let tmp := r.2 in
    do _ <- modify_priv (shadow_set LTC5599_FREQ_REG tmp);
    let multiplier :=
      if negb (Z.land tmp LTC5599_IQ_PHASEBAL_EXT_SIGN_BIT =? 0) then 1
      else -1 in
    do r <- ltc5599_read LTC5599_IQ_PHASEBAL_REG tmp;
    if failed r.1 then ret (r.1, val)
    else
      let tmp := r.2 in
      do _ <- modify_priv (shadow_set LTC5599_IQ_PHASEBAL_REG tmp);
      let coarse :=
        Z.shiftr (Z.land tmp LTC5599_IQ_PHASEBAL_EXT_MASK)
                 LTC5599_IQ_PHASEBAL_EXT_SHIFT in
      let val := s32 (Z.land tmp LTC5599_IQ_PHASEBAL_FINE_MASK - 16) in
      let val := s32 (val + s32 (s32 (multiplier * coarse) * 32)) in
      ret (0, val).

(** ** Reset values of the shadow registers *)

Definition ltc5599_fill_shadowregs : M B Z :=
  do _ <- modify_priv (fun st =>
            {| data := data st; shadowregs := replicate 32 0x00 |});
  do _ <- modify_priv (shadow_set LTC5599_FREQ_REG 0x2E);
  do _ <- modify_priv (shadow_set LTC5599_GAIN_REG 0x84);
  do _ <- modify_priv (shadow_set LTC5599_OFFSI_REG 0x80);
  do _ <- modify_priv (shadow_set LTC5599_OFFSQ_REG 0x80);
  do _ <- modify_priv (shadow_set LTC5599_IQ_GAINRAT_REG 0x80);
  do _ <- modify_priv (shadow_set LTC5599_IQ_PHASEBAL_REG 0x10);
  do _ <- modify_priv (shadow_set LTC5599_LOMATCH_OVR_REG 0x50);
  do _ <- modify_priv (shadow_set LTC5599_TEMPCORR_OVR_REG 0x06);
  do _ <- modify_priv (shadow_set LTC5599_MODE_REG 0x00);
  ret 0.

Definition ltc5599_init_registers : M B Z := ret 0.

(** ** The attribute interface *)

(** The cubic of the frequency read-back, in [long long] arithmetic. *)
Definition freq_poly (tmp : Z) : Z :=
  let t := s32 tmp in
  let tmp2 := s64 (s64 (s64 (-553 * t) * t) * t) in
  let tmp2 := s64 (tmp2 + s64 (s64 (198810 * t) * t)) in
  let tmp2 := s64 (tmp2 + s64 (-26120002 * t)) in
  let tmp2 := s64 (tmp2 + 1319492809) in
  s32 tmp2.

(** [ltc5599_read_raw]: [val] and [val2] are the current contents of the two
    output cells; the result is the return value and their new contents. *)
Definition ltc5599_read_raw (chan : iio_chan_spec) (val val2 : Z)
    (info : iio_chan_info_enum) : M B (Z * (Z * Z)) :=
  match info with
  | IIO_CHAN_INFO_OFFSET =>
      do r <- ltc5599_read_offset (u32 (address chan)) val;
      if failed r.1 then ret (r.1, (r.2, val2))
      else ret (IIO_VAL_INT, (r.2, val2))
  | IIO_CHAN_INFO_FREQUENCY =>
      do r <- ltc5599_read_freq 0;
      if failed r.1 then ret (r.1, (val, val2))
      else ret (IIO_VAL_INT, (freq_poly r.2, val2))
  | IIO_CHAN_INFO_HARDWAREGAIN =>
      do r <- ltc5599_read_gain 0;
      if failed r.1 then ret (r.1, (val, val2))
      else ret (IIO_VAL_INT_PLUS_MICRO_DB, (s32 (-1 * s32 r.2), 0))
  | IIO_CHAN_INFO_QUADRATURE_CORRECTION_RAW =>
      do r <- ltc5599_read_iqgainratio val;
      if failed r.1 then ret (r.1, (r.2, val2))
      else ret (IIO_VAL_INT, (r.2, val2))
  | IIO_CHAN_INFO_PHASE =>
      do r <- ltc5599_read_iqphasebalance val;
      if failed r.1 then ret (r.1, (r.2, val2))
      else ret (IIO_VAL_INT, (r.2, val2))
  | IIO_CHAN_INFO_other _ => ret (- EINVAL, (val, val2))
  end.

Definition ltc5599_write_raw (chan : iio_chan_spec) (val val2 : Z)
    (info : iio_chan_info_enum) : M B Z :=
  match info with
  | IIO_CHAN_INFO_OFFSET =>
      if (val <? -127) || (val >? 127) then ret (- EINVAL)
      else ltc5599_write_offset (u32 (address chan)) val
  | IIO_CHAN_INFO_FREQUENCY =>
      if (val <? 30000000) || (val >? 1300000000) then ret (- EINVAL)
      else
        let tmp := freq_to_ctrl_word (u32 (Z.quot val 1000)) in
        ltc5599_write_freq tmp
  | IIO_CHAN_INFO_HARDWAREGAIN =>
      if val >? 0 then ret (- EINVAL)
      else
        let tmp := u32 (- val) in
        let tmp := if tmp >? 19 then 19 else tmp in
        ltc5599_write_gain tmp
  | IIO_CHAN_INFO_QUADRATURE_CORRECTION_RAW =>
      if (val <? -127) || (val >? 127) then ret (- EINVAL)
      else ltc5599_write_iqgainratio val
  | IIO_CHAN_INFO_PHASE =>
      if (val <? -240) || (val >? 239) then ret (- EINVAL)
      else ltc5599_write_iqphasebalance val
  | IIO_CHAN_INFO_other _ => ret (- EINVAL)
  end.

End Codec.

(** ** A register-file device behind the bus

    The chip itself is not part of the driver.  To run the driver, this
    device keeps one byte per 7-bit address: a frame whose first byte has the
    read bit clear stores the payload, a frame with the read bit set answers
    with the addressed byte.  [faults] scripts the status of the coming
    transfers (consumed one per transfer, success once exhausted); a transfer
    with a non-zero status does not reach the register file. *)
Record chip : Type := Build_chip {
  regs : Z -> Z;
  faults : list Z
}.

Definition chip_exec (c : chip) (tx : list Z) : Z * list Z * chip :=
  let cmd := nth 0 tx 0 in
  let addr := Z.shiftr cmd 1 in
  if Z.testbit cmd 0 then (0, [0; regs c addr], c)
  else
    (0, [0; regs c addr],
     {| regs := fun a => if a =? addr then nth 1 tx 0 else regs c a;
        faults := faults c |}).

Definition chip_sync (c : chip) (tx : list Z) : Z * list Z * chip :=
  match faults c with
  | [] => chip_exec c tx
  | s :: rest =>
      let c' := {| regs := regs c; faults := rest |} in
      if s =? 0 then chip_exec c' tx else (s, [], c')
  end.

#[export] Instance chip_bus : SpiBus chip := chip_sync.

(** Every scripted status is a success. *)
Definition healthy (c : chip) : Prop := Forall (fun s => s = 0) (faults c).

(** The chip right after reset, with a script of transfer statuses. *)
Definition chip_reset (script : list Z) : chip :=
  {| regs := fun a =>
       if a =? 0 then 0x2E else if a =? 1 then 0x84 else if a =? 2 then 0x80
       else if a =? 3 then 0x80 else if a =? 4 then 0x80 else if a =? 5 then 0x10
       else if a =? 6 then 0x50 else if a =? 7 then 0x06 else 0;
     faults := script |}.

(** The device as [ltc5599_spi_probe] leaves it: shadow registers primed,
    nothing sent yet. *)
Definition probed (script : list Z) : iio_dev chip :=
  (ltc5599_fill_shadowregs
     {| priv := {| data := [0; 0]; shadowregs := replicate 32 0 |};
        spi := chip_reset script;
        wire := [] |}).2.

(** ** Vocabulary of the statements

    Names for the frames on the bus, for the byte each write operation
    computes, and for the device after a transfer. *)

(** The frame [ltc5599_write] puts on the bus. *)
Definition write_frame (addr val : Z) : list Z :=
  [u8 (Z.land (Z.shiftl (Z.land (u8 addr) 0x7F) 1) (Z.lnot LTC5599_READ_OPERATION));
   u8 (Z.land (u8 val) 0xFF)].

(** The frame [ltc5599_read] puts on the bus. *)
Definition read_frame (addr : Z) : list Z :=
  [u8 (Z.lor (Z.shiftl (Z.land (u8 addr) 0x7F) 1) LTC5599_READ_OPERATION); 0xFF].

(** The device after one transfer of [buf] that answered [s] and left the
    bus in [b']: buffer loaded, trace extended, shadow registers as before. *)
Definition sent {B} (buf : list Z) (s : Z) (b' : B) (d : iio_dev B) : iio_dev B :=
  {| priv := {| data := buf; shadowregs := shadowregs (priv d) |};
     spi := b';
     wire := wire d ++ [(buf, s)] |}.

(** The device with one shadow register overwritten. *)
Definition cached {B} (i v : Z) (d : iio_dev B) : iio_dev B :=
  {| priv := shadow_set i v (priv d); spi := spi d; wire := wire d |}.

(** The byte each write operation computes for its register. *)
Definition freq_byte (st : ltc5599) (val : Z) : Z :=
  u8 (Z.lor (Z.land (u8 (shadow_get st LTC5599_FREQ_REG)) (Z.lnot LTC5599_FREQ_MASK))
            (LTC5599_FREQ_VALUE val)).

Definition gain_byte (st : ltc5599) (val : Z) : Z :=
  u8 (Z.lor (Z.land (u8 (shadow_get st LTC5599_GAIN_REG)) (Z.lnot LTC5599_GAIN_MASK))
            (LTC5599_GAIN_VALUE val)).

Definition offset_byte (val : Z) : Z :=
  let val := if val >? 127 then 127 else val in
  let val := if val <? -127 then -127 else val in
  u8 (LTC5599_OFFS_VALUE (s32 (val + 128))).

Definition gainrat_byte (val : Z) : Z :=
  u8 (Z.lxor (u8 (LTC5599_IQ_GAINRAT_VALUE val)) 0x80).

Definition phase_coarse (val : Z) : Z :=
  if val >? 0 then Z.quot (s32 (val + 16)) 32 else Z.quot (s32 (15 - val)) 32.

Definition phase_byte (val : Z) : Z :=
  u8 (Z.lor (LTC5599_IQ_PHASEBAL_EXT_VALUE (phase_coarse val))
            (LTC5599_IQ_PHASEBAL_FINE_VALUE (Z.lxor (Z.land val 0x1F) 0x10))).

Definition sign_byte (st : ltc5599) (val : Z) : Z :=
  let tmp2 := u8 (shadow_get st LTC5599_FREQ_REG) in
  if val <? -16
  then u8 (Z.land tmp2 (Z.lnot LTC5599_IQ_PHASEBAL_EXT_SIGN_BIT))
  else u8 (Z.lor tmp2 LTC5599_IQ_PHASEBAL_EXT_SIGN_BIT).

Section CommitDef.

Context {B : Type} `{SpiBus B}.

(** The tail shared by all write operations. *)
Definition commit (reg tmp : Z) : M B Z :=
  do r <- ltc5599_write reg tmp;
  if failed r then ret r
  else
    do _ <- modify_priv (shadow_set reg tmp);
    ret 0.

End CommitDef.

(** The inputs the attribute writes refuse: a positive gain, a frequency
    outside 30 MHz .. 1.3 GHz, a gain ratio outside -127 .. 127, a phase
    balance outside -240 .. 239. *)
Definition out_of_domain (info : iio_chan_info_enum) (val : Z) : Prop :=
  match info with
  | IIO_CHAN_INFO_HARDWAREGAIN => val > 0
  | IIO_CHAN_INFO_FREQUENCY => val < 30000000 \/ val > 1300000000
  | IIO_CHAN_INFO_QUADRATURE_CORRECTION_RAW => val < -127 \/ val > 127
  | IIO_CHAN_INFO_PHASE => val < -240 \/ val > 239
  | _ => False
  end.

(** The arithmetic at the end of [ltc5599_read_iqphasebalance]. *)
Definition phase_value (tmp multiplier : Z) : Z :=
  let coarse :=
    Z.shiftr (Z.land tmp LTC5599_IQ_PHASEBAL_EXT_MASK)
             LTC5599_IQ_PHASEBAL_EXT_SHIFT in
  let val := s32 (Z.land tmp LTC5599_IQ_PHASEBAL_FINE_MASK - 16) in
  s32 (val + s32 (s32 (multiplier * coarse) * 32)).

(** The three facts about the phase byte of [v], as one test. *)
Definition phase_fields_ok (v : Z) : bool :=
  (phase_value (phase_byte v) (if v <? -16 then -1 else 1) =? v)
  && (Z.land (phase_byte v) 0x1F =? Z.lxor (Z.land v 0x1F) 0x10)
  && (Z.shiftr (phase_byte v) 5 =?
      (if v >? 0 then Z.quot (v + 16) 32 else Z.quot (15 - v) 32)).

(** ** Vocabulary for the remaining operations *)

(** The shape shared by the single-register reads: fetch the register, and
    on success cache the byte and decode the cached copy. *)
Definition fetch {B : Type} `{SpiBus B} (reg val : Z) (decode : Z -> Z)
    : M B (Z * Z) :=
  do r <- ltc5599_read reg 0;
  if failed r.1 then ret (r.1, val)
  else
    do _ <- modify_priv (shadow_set reg r.2);
    do st <- get_priv;
    ret (0, decode (shadow_get st reg)).

(** A threshold table read the way [freq_to_ctrl_word] reads its chain: the
    word of the first threshold the frequency exceeds, [dflt] if none. *)
Fixpoint scan (tbl : list (Z * Z)) (dflt : Z) (freq_in_khz : Z) : Z :=
  match tbl with
  | [] => dflt
  | (t, w) :: rest => if freq_in_khz >? t then w else scan rest dflt freq_in_khz
  end.

(** The thresholds and words of [freq_to_ctrl_word], in source order. *)
Definition ctrl_table : list (Z * Z) :=
  [
   (1249100, 1); (1248600, 2); (1238100, 3); (1214100, 4);
   (1191200, 5); (1165600, 6); (1141000, 7); (1120600, 8);
   (1100500, 9); (1069500, 10); (1039599, 11); (1023100, 12);
   (1007100, 13); (988300, 14); (961800, 15); (941300, 16);
   (921500, 17); (895200, 18); (877600, 19); (863600, 20);
   (843200, 21); (826900, 22); (807000, 23); (792300, 24);
   (772200, 25); (752700, 26); (734000, 27); (724200, 28);
   (704600, 29); (688700, 30); (673200, 31); (655200, 32);
   (638100, 33); (624600, 34); (611900, 35); (598400, 36);
   (585100, 37); (573900, 38); (563100, 39); (548100, 40);
   (538100, 41); (529100, 42); (518500, 43); (507000, 44);
   (497700, 45); (488000, 46); (471500, 47); (457700, 48);
   (448700, 49); (437400, 50); (426600, 51); (417500, 52);
   (407500, 53); (398000, 54); (390100, 55); (382800, 56);
   (376600, 57); (369800, 58); (353100, 59); (339000, 60);
   (332600, 61); (327200, 62); (320600, 63); (313700, 64);
   (309100, 65); (304500, 66); (288100, 67); (278300, 68);
   (274200, 69); (270300, 70); (266000, 71); (261899, 72);
   (258200, 73); (254100, 74); (243600, 75); (233800, 76);
   (230800, 77); (228000, 78); (220200, 79); (212600, 80);
   (210000, 81); (207600, 82); (202100, 83); (196200, 84);
   (193700, 85); (191200, 86); (186600, 87); (182000, 88);
   (179400, 89); (176000, 90); (170100, 91); (165000, 92);
   (162500, 93); (160000, 94); (156700, 95); (153600, 96);
   (151100, 97); (148600, 98); (142500, 99); (139600, 100);
   (136500, 101); (134300, 102); (131200, 103); (128100, 104);
   (126000, 105); (123800, 106); (121300, 107); (118300, 108);
   (115700, 109); (113500, 110); (111300, 111); (109500, 112);
   (107600, 113); (105600, 114); (103000, 115); (100300, 116);
   (98500, 117); (96600, 118); (94700, 119); (93000, 120)
  ].

(** The words of a table never decrease along it, start at [lo] or above
    and end at [dflt] or below. *)
Fixpoint ascending (lo : Z) (tbl : list (Z * Z)) (dflt : Z) : bool :=
  match tbl with
  | [] => lo <=? dflt
  | (_, w) :: rest => (lo <=? w) && ascending w rest dflt
  end.

(** The shadow array mirrors the device: 32 bytes, each equal to the
    register of the same address. *)
Definition coherent (d : iio_dev chip) : Prop :=
  shadow_wf (priv d) /\
  forall i, 0 <= i < 32 ->
    0 <= shadow_get (priv d) i < 256 /\
    shadow_get (priv d) i = regs (spi d) i.


(** One attribute access through the interface, and a run of them; only
    the device they leave behind is kept. *)
Inductive access : Type :=
  | Write (chan : iio_chan_spec) (val val2 : Z) (info : iio_chan_info_enum)
  | Read (chan : iio_chan_spec) (val val2 : Z) (info : iio_chan_info_enum).

Definition perform {B : Type} `{SpiBus B} (a : access) (d : iio_dev B)
    : iio_dev B :=
  match a with
  | Write chan val val2 info => (ltc5599_write_raw chan val val2 info d).2
  | Read chan val val2 info => (ltc5599_read_raw chan val val2 info d).2
  end.

Definition session {B : Type} `{SpiBus B} (ops : list access) (d : iio_dev B)
    : iio_dev B :=
  fold_left (fun d a => perform a d) ops d.




(** The shadow array as the C type has it: 32 entries, each a byte. *)
Definition cache_ok (st : ltc5599) : Prop :=
  length (shadowregs st) = 32%nat /\
  Forall (fun b => 0 <= b < 256) (shadowregs st).

(** * Properties *)

(** ** The register access layer, one transfer at a time *)

Section AccessFacts.

Context {B : Type} `{SpiBus B}.

Lemma ltc5599_write_eq (addr val : Z) (d : iio_dev B) s rx b' :
  spi_sync (spi d) (write_frame addr val) = (s, rx, b') ->
  ltc5599_write addr val d = (s, sent (write_frame addr val) s b' d).
Proof.
  intros E. unfold ltc5599_write, bind, modify_priv, spi_read_while_write, ret.
  change (Z.to_nat 2) with 2%nat. cbn [priv spi wire take Z.eqb].
  fold (write_frame addr val). rewrite E. reflexivity.
Qed.

Lemma ltc5599_read_eq (addr val : Z) (d : iio_dev B) s rx b' :
  spi_sync (spi d) (read_frame addr) = (s, rx, b') ->
  ltc5599_read addr val d =
    ((s, if s <? 0 then val else u8 (nth 1 rx 0)),
     sent (read_frame addr) s b' d).
Proof.
  intros E. unfold ltc5599_read, bind, modify_priv, spi_read_while_write, ret.
  change (Z.to_nat 2) with 2%nat. cbn [priv spi wire take Z.eqb].
  fold (read_frame addr). rewrite E. cbn [fst snd default].
  destruct (s <? 0); reflexivity.
Qed.

Lemma shadowregs_sent buf s b' (d : iio_dev B) :
  shadowregs (priv (sent buf s b' d)) = shadowregs (priv d).
Proof. reflexivity. Qed.

Lemma wire_sent buf s b' (d : iio_dev B) :
  wire (sent buf s b' d) = wire d ++ [(buf, s)].
Proof. reflexivity. Qed.

Lemma wire_cached i v (d : iio_dev B) : wire (cached i v d) = wire d.
Proof. reflexivity. Qed.

Lemma failed_false (s : Z) : failed s = false <-> s = 0.
Proof. unfold failed. destruct (Z.eqb_spec s 0); cbn; split; congruence. Qed.

Lemma failed_true (s : Z) : failed s = true <-> s <> 0.
Proof. unfold failed. destruct (Z.eqb_spec s 0); cbn; split; congruence. Qed.

End AccessFacts.

(** ** Shadow register array *)

Lemma shadow_get_set_eq (st : ltc5599) (i v : Z) :
  shadow_wf st -> 0 <= i < 32 ->
  shadow_get (shadow_set i v st) i = u8 v.
Proof.
  intros Hwf Hi. unfold shadow_get, shadow_set. cbn [shadowregs].
  rewrite list_lookup_insert_eq; [reflexivity|].
  unfold shadow_wf in Hwf. rewrite Hwf. lia.
Qed.

Lemma shadow_get_set_ne (st : ltc5599) (i j v : Z) :
  0 <= i -> 0 <= j -> i <> j ->
  shadow_get (shadow_set i v st) j = shadow_get st j.
Proof.
  intros Hi Hj Hne. unfold shadow_get, shadow_set. cbn [shadowregs].
  rewrite list_lookup_insert_ne; [reflexivity|]. lia.
Qed.

Lemma shadow_set_wf (st : ltc5599) (i v : Z) :
  shadow_wf st -> shadow_wf (shadow_set i v st).
Proof.
  unfold shadow_wf, shadow_set. cbn [shadowregs]. now rewrite length_insert.
Qed.

Lemma u8_range (x : Z) : 0 <= u8 x < 256.
Proof. unfold u8. apply Z.mod_pos_bound. lia. Qed.

Lemma u8_small (x : Z) : 0 <= x < 256 -> u8 x = x.
Proof. intros. unfold u8. apply Z.mod_small. lia. Qed.

Lemma s32_small (x : Z) : - 2 ^ 31 <= x < 2 ^ 31 -> s32 x = x.
Proof. intros. unfold s32. rewrite Z.mod_small; lia. Qed.

Lemma u32_small (x : Z) : 0 <= x < 2 ^ 32 -> u32 x = x.
Proof. intros. unfold u32. apply Z.mod_small. lia. Qed.

(** ** The write path: compute a byte, send it, cache it on success *)

Section WritePath.

Context {B : Type} `{SpiBus B}.

Lemma commit_eq (reg tmp : Z) (d : iio_dev B) s rx b' :
  spi_sync (spi d) (write_frame reg tmp) = (s, rx, b') ->
  commit reg tmp d =
    if failed s then (s, sent (write_frame reg tmp) s b' d)
    else (0, cached reg tmp (sent (write_frame reg tmp) s b' d)).
Proof.
  intros E. unfold commit, bind. rewrite (ltc5599_write_eq _ _ _ _ _ _ E).
  destruct (failed s); reflexivity.
Qed.

Lemma ltc5599_write_freq_commit (val : Z) (d : iio_dev B) :
  ltc5599_write_freq val d = commit LTC5599_FREQ_REG (freq_byte (priv d) val) d.
Proof. reflexivity. Qed.

Lemma ltc5599_write_gain_commit (val : Z) (d : iio_dev B) :
  ltc5599_write_gain val d = commit LTC5599_GAIN_REG (gain_byte (priv d) val) d.
Proof. reflexivity. Qed.

Lemma ltc5599_write_offset_commit (chan val : Z) (d : iio_dev B) :
  chan <= 1 ->
  ltc5599_write_offset chan val d =
    commit (LTC5599_OFFSI_REG + chan) (offset_byte val) d.
Proof.
  intros Hc. unfold ltc5599_write_offset.
  destruct (Z.gtb_spec chan 1); [lia | reflexivity].
Qed.

Lemma ltc5599_write_iqgainratio_commit (val : Z) (d : iio_dev B) :
  ltc5599_write_iqgainratio val d =
    commit LTC5599_IQ_GAINRAT_REG (gainrat_byte val) d.
Proof. reflexivity. Qed.

Lemma ltc5599_write_iqphasebalance_commit (val : Z) (d : iio_dev B) :
  ltc5599_write_iqphasebalance val d =
    bind (commit LTC5599_IQ_PHASEBAL_REG (phase_byte val))
         (fun r => if failed r then ret r
                   else commit LTC5599_FREQ_REG (sign_byte (priv d) val)) d.
Proof.
  unfold ltc5599_write_iqphasebalance, commit, bind, get_priv.
  fold (phase_coarse val). fold (phase_byte val). fold (sign_byte (priv d) val).
  destruct (ltc5599_write LTC5599_IQ_PHASEBAL_REG (phase_byte val) d) as [r d1].
  destruct (failed r) eqn:Er.
  - cbn. now rewrite Er.
  - cbn. reflexivity.
Qed.

(** What a write leaves behind, whatever the bus answered: one more entry on
    the trace, and the shadow register updated exactly when the status is 0. *)
Lemma commit_outcome (reg tmp : Z) (d : iio_dev B) :
  exists s b',
    wire (commit reg tmp d).2 = wire d ++ [(write_frame reg tmp, s)] /\
    spi (commit reg tmp d).2 = b' /\
    (commit reg tmp d).1 = s /\
    shadowregs (priv (commit reg tmp d).2) =
      if failed s then shadowregs (priv d)
      else <[Z.to_nat reg := u8 tmp]> (shadowregs (priv d)).
Proof.
  destruct (spi_sync (spi d) (write_frame reg tmp)) as [[s rx] b'] eqn:E.
  exists s, b'. rewrite (commit_eq _ _ _ _ _ _ E).
  destruct (failed s) eqn:Es; cbn; repeat split.
  apply failed_false in Es. congruence.
Qed.

End WritePath.

(** ** Bit-level facts about the masks *)

Lemma u8_land (x : Z) : u8 x = Z.land x (Z.ones 8).
Proof. unfold u8. rewrite Z.land_ones by lia. reflexivity. Qed.

Ltac bit_cases n :=
  repeat match goal with
  | |- context [Z.ltb n ?k] => destruct (Z.ltb_spec n k)
  | |- context [Z.eqb ?k n] => destruct (Z.eqb_spec k n)
  end.

(** Equality of two mask expressions, bit by bit. *)
Ltac bitwise :=
  let n := fresh "n" in
  let Hn := fresh "Hn" in
  rewrite ?u8_land;
  apply Z.bits_inj'; intros n Hn;
  repeat (rewrite ?Z.land_spec, ?Z.lor_spec, ?Z.lxor_spec, ?Z.lnot_spec,
            ?Z.testbit_ones_nonneg, ?Z.pow2_bits_eqb, ?Z.bits_0 by lia);
  bit_cases n; try lia;
  repeat match goal with
  | |- context [Z.testbit ?a n] => destruct (Z.testbit a n)
  end; reflexivity.

Lemma freq_byte_bit7 (st : ltc5599) (val : Z) :
  Z.land (freq_byte st val) 0x80 = Z.land (shadow_get st LTC5599_FREQ_REG) 0x80.
Proof.
  unfold freq_byte, LTC5599_FREQ_VALUE.
  change LTC5599_FREQ_MASK with (Z.ones 7). change 0x7F with (Z.ones 7).
  change 0x80 with (2 ^ 7). generalize (shadow_get st LTC5599_FREQ_REG) as x.
  intros x. bitwise.
Qed.

Lemma freq_byte_low7 (st : ltc5599) (val : Z) :
  Z.land (freq_byte st val) 0x7F = Z.land val 0x7F.
Proof.
  unfold freq_byte, LTC5599_FREQ_VALUE.
  change LTC5599_FREQ_MASK with (Z.ones 7). change 0x7F with (Z.ones 7).
  generalize (shadow_get st LTC5599_FREQ_REG) as x. intros x. bitwise.
Qed.

Lemma gain_byte_bits567 (st : ltc5599) (val : Z) :
  Z.land (gain_byte st val) 0xE0 = Z.land (shadow_get st LTC5599_GAIN_REG) 0xE0.
Proof.
  unfold gain_byte, LTC5599_GAIN_VALUE.
  change LTC5599_GAIN_MASK with (Z.ones 5). change 0x1F with (Z.ones 5).
  change 0xE0 with (Z.land (Z.ones 8) (Z.lnot (Z.ones 5))).
  generalize (shadow_get st LTC5599_GAIN_REG) as x. intros x. bitwise.
Qed.

Lemma sign_byte_low7 (st : ltc5599) (val : Z) :
  Z.land (sign_byte st val) 0x7F = Z.land (shadow_get st LTC5599_FREQ_REG) 0x7F.
Proof.
  unfold sign_byte. change LTC5599_IQ_PHASEBAL_EXT_SIGN_BIT with (2 ^ 7).
  change 0x7F with (Z.ones 7).
  generalize (shadow_get st LTC5599_FREQ_REG) as x. intros x.
  destruct (val <? -16); bitwise.
Qed.

Lemma sign_byte_bit7 (st : ltc5599) (val : Z) :
  Z.land (sign_byte st val) 0x80 = if val <? -16 then 0 else 0x80.
Proof.
  unfold sign_byte. change LTC5599_IQ_PHASEBAL_EXT_SIGN_BIT with (2 ^ 7).
  change 0x80 with (2 ^ 7).
  generalize (shadow_get st LTC5599_FREQ_REG) as x. intros x.
  destruct (val <? -16); bitwise.
Qed.

Lemma u8_idem (x : Z) : u8 (u8 x) = u8 x.
Proof. apply u8_small, u8_range. Qed.

Lemma freq_byte_u8 st val : u8 (freq_byte st val) = freq_byte st val.
Proof. apply u8_idem. Qed.

Lemma gain_byte_u8 st val : u8 (gain_byte st val) = gain_byte st val.
Proof. apply u8_idem. Qed.

Lemma sign_byte_u8 st val : u8 (sign_byte st val) = sign_byte st val.
Proof. unfold sign_byte. destruct (val <? -16); apply u8_idem. Qed.

Lemma phase_byte_u8 val : u8 (phase_byte val) = phase_byte val.
Proof. apply u8_idem. Qed.

Lemma shadow_get_ext (st st0 : ltc5599) (i : Z) :
  shadowregs st = shadowregs st0 -> shadow_get st i = shadow_get st0 i.
Proof. unfold shadow_get. now intros ->. Qed.

(** Writing one slot of the array leaves a masked view of that slot alone as
    soon as the new byte agrees with the old one under the mask. *)
Lemma shadow_set_masked (st st0 : ltc5599) (i v mask : Z) :
  shadowregs st = shadowregs st0 ->
  u8 v = v ->
  Z.land v mask = Z.land (shadow_get st0 i) mask ->
  Z.land (shadow_get (shadow_set i v st) i) mask = Z.land (shadow_get st0 i) mask.
Proof.
  intros He Hv Hm. unfold shadow_get, shadow_set in *. cbn [shadowregs] in *.
  rewrite He.
  destruct (decide (Z.to_nat i < length (shadowregs st0))%nat) as [Hlt|Hge].
  - rewrite list_lookup_insert_eq by exact Hlt. cbn. now rewrite Hv.
  - rewrite list_insert_ge by lia. reflexivity.
Qed.

Lemma shadow_set_other (st : ltc5599) (i v : Z) (j : nat) :
  j <> Z.to_nat i ->
  shadowregs (shadow_set i v st) !! j = shadowregs st !! j.
Proof.
  intros Hne. unfold shadow_set. cbn [shadowregs].
  now rewrite list_lookup_insert_ne by congruence.
Qed.

Lemma write_frame_bytes (reg tmp : Z) :
  0 <= reg < 128 -> u8 tmp = tmp ->
  write_frame reg tmp = [2 * reg; tmp].
Proof.
  intros Hr Ht. unfold write_frame. f_equal; [|f_equal].
  - rewrite (u8_small reg) by lia.
    change 0x7F with (Z.ones 7). rewrite Z.land_ones by lia.
    rewrite (Z.mod_small reg) by lia. rewrite Z.shiftl_mul_pow2 by lia.
    change (Z.lnot LTC5599_READ_OPERATION) with (Z.lnot (Z.ones 1)).
    rewrite <- Z.ldiff_land, Z.ldiff_ones_r by lia.
    rewrite Z.shiftr_div_pow2, Z.shiftl_mul_pow2 by lia.
    change (2 ^ 1) with 2. rewrite Z.div_mul by lia.
    rewrite u8_small by lia. lia.
  - rewrite Ht. change 0xFF with (Z.ones 8). rewrite Z.land_ones by lia.
    fold (u8 tmp). now rewrite !Ht.
Qed.

Section Frames.

Context {B : Type} `{SpiBus B}.

(** *** Bit-fields that share a byte *)

Lemma write_freq_keeps_sign (d : iio_dev B) (val : Z) :
  Z.land (shadow_get (priv (ltc5599_write_freq val d).2) LTC5599_FREQ_REG) 0x80
  = Z.land (shadow_get (priv d) LTC5599_FREQ_REG) 0x80.
Proof.
  rewrite ltc5599_write_freq_commit.
  destruct (spi_sync (spi d) (write_frame LTC5599_FREQ_REG (freq_byte (priv d) val)))
    as [[s rx] b'] eqn:E.
  rewrite (commit_eq _ _ _ _ _ _ E). destruct (failed s); [reflexivity|].
  cbn [snd priv cached]. apply shadow_set_masked.
  - reflexivity.
  - apply freq_byte_u8.
  - apply freq_byte_bit7.
Qed.

Lemma write_gain_keeps_mode (d : iio_dev B) (val : Z) :
  Z.land (shadow_get (priv (ltc5599_write_gain val d).2) LTC5599_GAIN_REG) 0xE0
  = Z.land (shadow_get (priv d) LTC5599_GAIN_REG) 0xE0.
Proof.
  rewrite ltc5599_write_gain_commit.
  destruct (spi_sync (spi d) (write_frame LTC5599_GAIN_REG (gain_byte (priv d) val)))
    as [[s rx] b'] eqn:E.
  rewrite (commit_eq _ _ _ _ _ _ E). destruct (failed s); [reflexivity|].
  cbn [snd priv cached]. apply shadow_set_masked.
  - reflexivity.
  - apply gain_byte_u8.
  - apply gain_byte_bits567.
Qed.

(** The three ways a phase-balance write can end. *)
Lemma ltc5599_write_iqphasebalance_cases (d : iio_dev B) (val : Z) :
  let tx1 := write_frame LTC5599_IQ_PHASEBAL_REG (phase_byte val) in
  let tx2 := write_frame LTC5599_FREQ_REG (sign_byte (priv d) val) in
  (exists s b1, s <> 0 /\
     ltc5599_write_iqphasebalance val d = (s, sent tx1 s b1 d))
  \/ (exists s b1 b2, s <> 0 /\
     ltc5599_write_iqphasebalance val d =
       (s, sent tx2 s b2 (cached LTC5599_IQ_PHASEBAL_REG (phase_byte val)
                            (sent tx1 0 b1 d))))
  \/ (exists b1 b2,
     ltc5599_write_iqphasebalance val d =
       (0, cached LTC5599_FREQ_REG (sign_byte (priv d) val)
             (sent tx2 0 b2 (cached LTC5599_IQ_PHASEBAL_REG (phase_byte val)
                               (sent tx1 0 b1 d))))).
Proof.
  intros tx1 tx2. rewrite ltc5599_write_iqphasebalance_commit. unfold bind.
  destruct (spi_sync (spi d) tx1) as [[s1 rx1] b1] eqn:E1.
  rewrite (commit_eq _ _ _ _ _ _ E1).
  destruct (failed s1) eqn:F1.
  - left. exists s1, b1. rewrite F1. split; [now apply failed_true|reflexivity].
  - apply failed_false in F1. subst s1. change (failed 0) with false. cbv iota.
    set (d1 := cached _ _ _).
    destruct (spi_sync (spi d1) tx2) as [[s2 rx2] b2] eqn:E2.
    rewrite (commit_eq _ _ _ _ _ _ E2).
    destruct (failed s2) eqn:F2.
    + right; left. exists s2, b1, b2. split; [now apply failed_true|reflexivity].
    + right; right. exists b1, b2. apply failed_false in F2. subst s2. reflexivity.
Qed.

Lemma write_phase_keeps_tuning_word (d : iio_dev B) (val : Z) :
  Z.land (shadow_get (priv (ltc5599_write_iqphasebalance val d).2) LTC5599_FREQ_REG) 0x7F
  = Z.land (shadow_get (priv d) LTC5599_FREQ_REG) 0x7F.
Proof.
  set (st1 := shadow_set LTC5599_IQ_PHASEBAL_REG (phase_byte val) (priv d)).
  assert (Hother : shadow_get st1 LTC5599_FREQ_REG
                   = shadow_get (priv d) LTC5599_FREQ_REG).
  { apply shadow_get_set_ne; unfold LTC5599_IQ_PHASEBAL_REG, LTC5599_FREQ_REG; lia. }
  destruct (ltc5599_write_iqphasebalance_cases d val)
    as [(s & b1 & _ & ->) | [(s & b1 & b2 & _ & ->) | (b1 & b2 & ->)]].
  - reflexivity.
  - rewrite <- Hother. f_equal.
  - cbn [snd priv cached]. rewrite <- Hother.
    apply shadow_set_masked.
    + reflexivity.
    + apply sign_byte_u8.
    + rewrite sign_byte_low7. now rewrite Hother.
Qed.

End Frames.

(** ** Failing transfers *)

Lemma app_one_neq {A} (l : list A) (x : A) : l <> l ++ [x].
Proof.
  intros E. apply (f_equal length) in E. rewrite length_app in E. cbn in E. lia.
Qed.

Section Failure.

Context {B : Type} `{SpiBus B}.

Lemma commit_failure (reg tmp : Z) (d : iio_dev B) (tx : list Z) (e : Z) :
  e <> 0 ->
  wire (commit reg tmp d).2 = wire d ++ [(tx, e)] ->
  (commit reg tmp d).1 = e /\
  shadowregs (priv (commit reg tmp d).2) = shadowregs (priv d).
Proof.
  intros He Hw.
  destruct (spi_sync (spi d) (write_frame reg tmp)) as [[s rx] b'] eqn:E.
  rewrite (commit_eq _ _ _ _ _ _ E) in *.
  destruct (failed s) eqn:Fs; cbn [fst snd] in *.
  - rewrite wire_sent in Hw. apply app_inj_tail in Hw as [_ Hw].
    injection Hw as _ ->. split; reflexivity.
  - rewrite wire_cached, wire_sent in Hw. apply app_inj_tail in Hw as [_ Hw].
    injection Hw as _ ->. apply failed_false in Fs. contradiction.
Qed.

Lemma phase_second_failure (d : iio_dev B) (val : Z) (tx1 tx2 : list Z) (e : Z) :
  e <> 0 ->
  wire (ltc5599_write_iqphasebalance val d).2 = wire d ++ [(tx1, 0); (tx2, e)] ->
  exists b1 b2,
    ltc5599_write_iqphasebalance val d =
      (e, sent (write_frame LTC5599_FREQ_REG (sign_byte (priv d) val)) e b2
            (cached LTC5599_IQ_PHASEBAL_REG (phase_byte val)
               (sent (write_frame LTC5599_IQ_PHASEBAL_REG (phase_byte val)) 0 b1 d))).
Proof.
  intros He Hw.
  destruct (ltc5599_write_iqphasebalance_cases d val)
    as [(s & b1 & Hs & E) | [(s & b1 & b2 & Hs & E) | (b1 & b2 & E)]];
    rewrite E in Hw |- *; cbn [snd] in Hw.
  - rewrite wire_sent in Hw. apply app_inv_head in Hw. discriminate Hw.
  - rewrite wire_sent, wire_cached, wire_sent, <- app_assoc in Hw.
    apply app_inv_head in Hw. cbn in Hw. injection Hw as _ _ ->.
    exists b1, b2. reflexivity.
  - rewrite wire_cached, wire_sent, wire_cached, wire_sent, <- app_assoc in Hw.
    apply app_inv_head in Hw. cbn in Hw. injection Hw as _ _ <-. contradiction.
Qed.

End Failure.

(** * The claims *)

(** C8. A write whose bus transfer fails returns the bus status and leaves the
    shadow cache as it was: if the one transfer issued by a frequency, gain,
    offset or gain-ratio write (or the first transfer of a phase-balance
    write) ended with a non-zero status [e], the operation returns [e] and
    the shadow array is unchanged.  If a phase-balance write got its
    phase-register transfer through and the following frequency-register
    transfer failed with [e], it returns [e], the cached phase register
    holds the new byte and every other cached register, the frequency
    register included, is unchanged. *)
Theorem write_failure_leaves_cache {B : Type} `{SpiBus B}
    (d : iio_dev B) (e : Z) (He : e <> 0) :
  (forall val tx,
     wire (ltc5599_write_freq val d).2 = wire d ++ [(tx, e)] ->
     (ltc5599_write_freq val d).1 = e /\
     shadowregs (priv (ltc5599_write_freq val d).2) = shadowregs (priv d))
  /\ (forall val tx,
     wire (ltc5599_write_gain val d).2 = wire d ++ [(tx, e)] ->
     (ltc5599_write_gain val d).1 = e /\
     shadowregs (priv (ltc5599_write_gain val d).2) = shadowregs (priv d))
  /\ (forall chan val tx,
     wire (ltc5599_write_offset chan val d).2 = wire d ++ [(tx, e)] ->
     (ltc5599_write_offset chan val d).1 = e /\
     shadowregs (priv (ltc5599_write_offset chan val d).2) = shadowregs (priv d))
  /\ (forall val tx,
     wire (ltc5599_write_iqgainratio val d).2 = wire d ++ [(tx, e)] ->
     (ltc5599_write_iqgainratio val d).1 = e /\
     shadowregs (priv (ltc5599_write_iqgainratio val d).2) = shadowregs (priv d))
  /\ (forall val tx,
     wire (ltc5599_write_iqphasebalance val d).2 = wire d ++ [(tx, e)] ->
     (ltc5599_write_iqphasebalance val d).1 = e /\
     shadowregs (priv (ltc5599_write_iqphasebalance val d).2) = shadowregs (priv d))
  /\ (forall val tx1 tx2,
     shadow_wf (priv d) ->
     wire (ltc5599_write_iqphasebalance val d).2 = wire d ++ [(tx1, 0); (tx2, e)] ->
     let d' := (ltc5599_write_iqphasebalance val d).2 in
     (ltc5599_write_iqphasebalance val d).1 = e /\
     tx1 = [2 * LTC5599_IQ_PHASEBAL_REG; phase_byte val] /\
     shadow_get (priv d') LTC5599_IQ_PHASEBAL_REG = phase_byte val /\
     shadow_get (priv d') LTC5599_FREQ_REG = shadow_get (priv d) LTC5599_FREQ_REG /\
     (forall j, j <> Z.to_nat LTC5599_IQ_PHASEBAL_REG ->
        shadowregs (priv d') !! j = shadowregs (priv d) !! j)).
Proof.
  repeat apply conj.
  - intros val tx. rewrite ltc5599_write_freq_commit. now apply commit_failure.
  - intros val tx. rewrite ltc5599_write_gain_commit. now apply commit_failure.
  - intros chan val tx. destruct (Z.le_gt_cases chan 1) as [Hc|Hc].
    + rewrite ltc5599_write_offset_commit by exact Hc. now apply commit_failure.
    + unfold ltc5599_write_offset.
      destruct (Z.gtb_spec chan 1); [|lia].
      cbn. intros Hw. now apply app_one_neq in Hw.
  - intros val tx. rewrite ltc5599_write_iqgainratio_commit. now apply commit_failure.
  - intros val tx Hw.
    destruct (ltc5599_write_iqphasebalance_cases d val)
      as [(s & b1 & Hs & E) | [(s & b1 & b2 & Hs & E) | (b1 & b2 & E)]];
      rewrite E in Hw |- *; cbn [fst snd] in *.
    + rewrite wire_sent in Hw. apply app_inj_tail in Hw as [_ Hw].
      injection Hw as _ ->. split; reflexivity.
    + rewrite wire_sent, wire_cached, wire_sent, <- app_assoc in Hw.
      apply app_inv_head in Hw. discriminate Hw.
    + rewrite wire_cached, wire_sent, wire_cached, wire_sent, <- app_assoc in Hw.
      apply app_inv_head in Hw. discriminate Hw.
  - intros val tx1 tx2 Hwf Hw d'.
    destruct (phase_second_failure d val tx1 tx2 e He Hw) as (b1 & b2 & E).
    subst d'. rewrite E in Hw |- *. cbn [fst snd] in *.
    rewrite wire_sent, wire_cached, wire_sent, <- app_assoc in Hw.
    apply app_inv_head in Hw. cbn in Hw. injection Hw as <- <-.
    split; [reflexivity|]. split.
    { apply write_frame_bytes; [unfold LTC5599_IQ_PHASEBAL_REG; lia|].
      apply phase_byte_u8. }
    unfold shadow_get. cbn [priv sent cached shadow_set shadowregs].
    unfold shadow_wf in Hwf.
    split; [|split].
    + rewrite list_lookup_insert_eq
        by (rewrite Hwf; unfold LTC5599_IQ_PHASEBAL_REG; lia).
      apply phase_byte_u8.
    + rewrite list_lookup_insert_ne
        by (unfold LTC5599_IQ_PHASEBAL_REG, LTC5599_FREQ_REG; lia).
      reflexivity.
    + intros j Hj. now rewrite list_lookup_insert_ne by congruence.
Qed.

Lemma write_failure_leaves_cache_witness :
  -5 <> 0 /\
  ((ltc5599_write_freq 1 (probed [-5])).1 = -5 /\
   shadowregs (priv (ltc5599_write_freq 1 (probed [-5])).2)
   = shadowregs (priv (probed [-5]))) /\
  (let d' := (ltc5599_write_iqphasebalance (-20) (probed [0; -5])).2 in
   (ltc5599_write_iqphasebalance (-20) (probed [0; -5])).1 = -5 /\
   [10; 60] = [2 * LTC5599_IQ_PHASEBAL_REG; phase_byte (-20)] /\
   shadow_get (priv d') LTC5599_IQ_PHASEBAL_REG = phase_byte (-20) /\
   shadow_get (priv d') LTC5599_FREQ_REG
   = shadow_get (priv (probed [0; -5])) LTC5599_FREQ_REG /\
   (forall j, j <> Z.to_nat LTC5599_IQ_PHASEBAL_REG ->
      shadowregs (priv d') !! j = shadowregs (priv (probed [0; -5])) !! j)).
Proof.
  split; [discriminate|]. split.
  - apply (proj1 (write_failure_leaves_cache (probed [-5]) (-5) ltac:(discriminate))
             1 [0; 1]).
    reflexivity.
  - apply (proj2 (proj2 (proj2 (proj2 (proj2
             (write_failure_leaves_cache (probed [0; -5]) (-5) ltac:(discriminate))))))
             (-20) [10; 60] [0; 46]); reflexivity.
Defined.

(** C7. A gain, frequency, gain-ratio or phase-balance write with an input
    outside its domain returns [-EINVAL] and leaves the whole device as it
    was: no transfer on the bus, no change to the shadow cache. *)
Theorem invalid_write_rejected {B : Type} `{SpiBus B}
    (d : iio_dev B) (chan : iio_chan_spec) (val val2 : Z)
    (info : iio_chan_info_enum) :
  out_of_domain info val ->
  ltc5599_write_raw chan val val2 info d = (- EINVAL, d).
Proof.
  destruct info; cbn [out_of_domain]; intros Hd; try contradiction;
    unfold ltc5599_write_raw.
  - destruct (Z.ltb_spec val 30000000), (Z.gtb_spec val 1300000000);
      cbn [orb]; try reflexivity; lia.
  - destruct (Z.gtb_spec val 0); [reflexivity | lia].
  - destruct (Z.ltb_spec val (-127)), (Z.gtb_spec val 127);
      cbn [orb]; try reflexivity; lia.
  - destruct (Z.ltb_spec val (-240)), (Z.gtb_spec val 239);
      cbn [orb]; try reflexivity; lia.
Qed.

Lemma invalid_write_rejected_witness :
  out_of_domain IIO_CHAN_INFO_HARDWAREGAIN 5 /\
  ltc5599_write_raw (LTC5599_CHANNEL 0) 5 0 IIO_CHAN_INFO_HARDWAREGAIN (probed [])
  = (- EINVAL, probed []).
Proof.
  split; [reflexivity|].
  apply (invalid_write_rejected (probed []) (LTC5599_CHANNEL 0) 5 0
           IIO_CHAN_INFO_HARDWAREGAIN).
  reflexivity.
Defined.

(** C10. With a channel index above 1 the offset write and the offset read
    both return [-EINVAL] at once: the device (bus, trace, shadow cache) and
    the output cell are untouched, whatever the value argument. *)
Theorem offset_bad_channel {B : Type} `{SpiBus B}
    (d : iio_dev B) (chan val : Z) :
  chan > 1 ->
  ltc5599_write_offset chan val d = (- EINVAL, d) /\
  ltc5599_read_offset chan val d = ((- EINVAL, val), d).
Proof.
  intros Hc. unfold ltc5599_write_offset, ltc5599_read_offset.
  case (Z.gtb_spec chan 1); intros Hc'.
  - split; reflexivity.
  - exfalso. lia.
Qed.

Lemma offset_bad_channel_witness :
  2 > 1 /\
  ltc5599_write_offset 2 77 (probed []) = (- EINVAL, probed []) /\
  ltc5599_read_offset 2 77 (probed []) = ((- EINVAL, 77), probed []).
Proof.
  split; [reflexivity|]. apply (offset_bad_channel (probed []) 2 77). reflexivity.
Defined.

(** C1, as the code has it.  An offset outside -127 .. 127 is clamped only
    inside [ltc5599_write_offset]: called directly on channel 0 or 1 with
    such a value and a bus that accepts the frame, it succeeds, sends the
    clamped byte (0xFF above the range, 0x01 below) and caches it.  The
    attribute write [ltc5599_write_raw] never gets there: it returns
    [-EINVAL] for the same value and leaves the device untouched. *)
Theorem offset_out_of_range {B : Type} `{SpiBus B}
    (d : iio_dev B) (chan v val2 : Z) (rx : list Z) (b' : B) :
  v < -127 \/ 127 < v ->
  chan = 0 \/ chan = 1 ->
  shadow_wf (priv d) ->
  let byte := if v >? 127 then 0xFF else 0x01 in
  let tx := [2 * (LTC5599_OFFSI_REG + chan); byte] in
  spi_sync (spi d) tx = (0, rx, b') ->
  ltc5599_write_raw (LTC5599_CHANNEL chan) v val2 IIO_CHAN_INFO_OFFSET d
  = (- EINVAL, d)
  /\ (ltc5599_write_offset chan v d).1 = 0
  /\ shadow_get (priv (ltc5599_write_offset chan v d).2) (LTC5599_OFFSI_REG + chan)
     = byte
  /\ wire (ltc5599_write_offset chan v d).2 = wire d ++ [(tx, 0)]
  /\ spi (ltc5599_write_offset chan v d).2 = b'.
Proof.
  intros Hv Hc Hwf byte tx Hbus. split.
  - unfold ltc5599_write_raw.
    destruct (Z.ltb_spec v (-127)), (Z.gtb_spec v 127);
      cbn [orb]; try reflexivity; lia.
  - assert (Hb : offset_byte v = byte).
    { unfold offset_byte, byte.
      destruct (Z.gtb_spec v 127) as [Hhi|Hlo]; [reflexivity|].
      destruct (Z.ltb_spec v (-127)); [reflexivity | lia]. }
    assert (Hu : u8 byte = byte) by (unfold byte; destruct (v >? 127); reflexivity).
    assert (Htx : write_frame (LTC5599_OFFSI_REG + chan) byte = tx).
    { apply write_frame_bytes; [unfold LTC5599_OFFSI_REG; lia | exact Hu]. }
    rewrite ltc5599_write_offset_commit by lia. rewrite Hb.
    rewrite <- Htx in Hbus. rewrite (commit_eq _ _ _ _ _ _ Hbus), Htx.
    change (failed 0) with false. cbn [fst snd].
    repeat split.
    rewrite <- Hu at 2.
    apply (shadow_get_set_eq (priv (sent tx 0 b' d))); [exact Hwf|].
    unfold LTC5599_OFFSI_REG; lia.
Qed.

Lemma offset_out_of_range_witness :
  (200 < -127 \/ 127 < 200) /\ (1 = 0 \/ 1 = 1) /\ shadow_wf (priv (probed [])) /\
  ltc5599_write_raw (LTC5599_CHANNEL 1) 200 0 IIO_CHAN_INFO_OFFSET (probed [])
  = (- EINVAL, probed []) /\
  (ltc5599_write_offset 1 200 (probed [])).1 = 0 /\
  shadow_get (priv (ltc5599_write_offset 1 200 (probed [])).2) LTC5599_OFFSQ_REG
  = 0xFF /\
  wire (ltc5599_write_offset 1 200 (probed [])).2 = [([6; 0xFF], 0)].
Proof.
  assert (Hv : 200 < -127 \/ 127 < 200) by (right; reflexivity).
  assert (Hc : 1 = 0 \/ 1 = 1) by (right; reflexivity).
  assert (Hwf : shadow_wf (priv (probed []))) by reflexivity.
  split; [exact Hv|]. split; [exact Hc|]. split; [exact Hwf|].
  destruct (offset_out_of_range (probed []) 1 200 0
              (spi_sync (spi (probed [])) [6; 0xFF]).1.2
              (spi_sync (spi (probed [])) [6; 0xFF]).2
              Hv Hc Hwf eq_refl) as (H1 & H2 & H3 & H4 & _).
  repeat split; assumption.
Defined.

(** C1 as stated fails: on either channel the attribute write of 200 is
    refused with [-EINVAL], nothing is sent and the cached offset byte keeps
    its reset value 0x80. *)
Lemma public_offset_write_200_refused :
  let r0 := ltc5599_write_raw (LTC5599_CHANNEL 0) 200 0 IIO_CHAN_INFO_OFFSET
              (probed []) in
  let r1 := ltc5599_write_raw (LTC5599_CHANNEL 1) 200 0 IIO_CHAN_INFO_OFFSET
              (probed []) in
  (r0.1 = - EINVAL /\ r0.1 <> 0 /\ wire r0.2 = [] /\
   shadow_get (priv r0.2) LTC5599_OFFSI_REG = 0x80 /\
   shadow_get (priv r0.2) LTC5599_OFFSI_REG <> 0xFF) /\
  (r1.1 = - EINVAL /\ r1.1 <> 0 /\ wire r1.2 = [] /\
   shadow_get (priv r1.2) LTC5599_OFFSQ_REG = 0x80 /\
   shadow_get (priv r1.2) LTC5599_OFFSQ_REG <> 0xFF).
Proof. cbn. repeat split; discriminate. Qed.

Lemma gain_byte_low5 (st : ltc5599) (val : Z) :
  Z.land (gain_byte st val) 0x1F = Z.land val 0x1F.
Proof.
  unfold gain_byte, LTC5599_GAIN_VALUE.
  change LTC5599_GAIN_MASK with (Z.ones 5). change 0x1F with (Z.ones 5).
  generalize (shadow_get st LTC5599_GAIN_REG) as x. intros x. bitwise.
Qed.

Section Traces.

Context {B : Type} `{SpiBus B}.

Lemma commit_wire (reg tmp : Z) (d : iio_dev B) :
  exists s, wire (commit reg tmp d).2 = wire d ++ [(write_frame reg tmp, s)].
Proof.
  destruct (commit_outcome reg tmp d) as (s & b' & Hw & _). now exists s.
Qed.

Lemma commit_others (reg tmp : Z) (d : iio_dev B) (j : nat) :
  j <> Z.to_nat reg ->
  shadowregs (priv (commit reg tmp d).2) !! j = shadowregs (priv d) !! j.
Proof.
  intros Hj. destruct (commit_outcome reg tmp d) as (s & b' & _ & _ & _ & Hs).
  rewrite Hs. destruct (failed s); [reflexivity|].
  now rewrite list_lookup_insert_ne by congruence.
Qed.

Lemma write_phase_frames (d : iio_dev B) (val : Z) (tx : list Z) (s : Z) :
  In (tx, s) (wire (ltc5599_write_iqphasebalance val d).2) ->
  In (tx, s) (wire d)
  \/ tx = [2 * LTC5599_IQ_PHASEBAL_REG; phase_byte val]
  \/ tx = [2 * LTC5599_FREQ_REG; sign_byte (priv d) val].
Proof.
  assert (F1 : write_frame LTC5599_IQ_PHASEBAL_REG (phase_byte val)
               = [2 * LTC5599_IQ_PHASEBAL_REG; phase_byte val]).
  { apply write_frame_bytes; [unfold LTC5599_IQ_PHASEBAL_REG; lia|].
    apply phase_byte_u8. }
  assert (F2 : write_frame LTC5599_FREQ_REG (sign_byte (priv d) val)
               = [2 * LTC5599_FREQ_REG; sign_byte (priv d) val]).
  { apply write_frame_bytes; [unfold LTC5599_FREQ_REG; lia|].
    apply sign_byte_u8. }
  destruct (ltc5599_write_iqphasebalance_cases d val)
    as [(e & b1 & _ & ->) | [(e & b1 & b2 & _ & ->) | (b1 & b2 & ->)]];
    cbn [snd]; rewrite ?wire_cached, ?wire_sent, ?wire_cached, ?wire_sent;
    rewrite F1, ?F2, ?in_app_iff; cbn [In]; intros Hin;
    repeat match goal with
    | Hx : _ \/ _ |- _ => destruct Hx
    | Hx : (_, _) = (_, _) |- _ => injection Hx as <- <-
    | Hx : False |- _ => destruct Hx
    end; auto.
Qed.

End Traces.

(** C9. Read-modify-write from the shadow cache keeps the fields that share
    a byte.  A frequency write, through the attribute interface or directly,
    leaves bit 7 of the cached frequency byte alone, touches no other cached
    register, and the byte it sends carries the cached bit 7 and the new low
    seven bits.  A gain write does the same for bits 5 to 7 of the gain
    byte.  A phase-balance write leaves the low seven bits of the cached
    frequency byte alone, and any frame it sends to the frequency register
    carries those seven bits. *)
Theorem rmw_preserves_shared_fields {B : Type} `{SpiBus B}
    (d : iio_dev B) (chan : iio_chan_spec) (val val2 : Z) :
  let old_freq := shadow_get (priv d) LTC5599_FREQ_REG in
  let old_gain := shadow_get (priv d) LTC5599_GAIN_REG in
  let f := (ltc5599_write_freq val d).2 in
  let g := (ltc5599_write_gain val d).2 in
  let p := (ltc5599_write_iqphasebalance val d).2 in
  let F := (ltc5599_write_raw chan val val2 IIO_CHAN_INFO_FREQUENCY d).2 in
  let G := (ltc5599_write_raw chan val val2 IIO_CHAN_INFO_HARDWAREGAIN d).2 in
  let P := (ltc5599_write_raw chan val val2 IIO_CHAN_INFO_PHASE d).2 in
  (Z.land (shadow_get (priv f) LTC5599_FREQ_REG) 0x80 = Z.land old_freq 0x80
   /\ (forall j, j <> Z.to_nat LTC5599_FREQ_REG ->
         shadowregs (priv f) !! j = shadowregs (priv d) !! j)
   /\ exists b s, wire f = wire d ++ [([2 * LTC5599_FREQ_REG; b], s)]
        /\ Z.land b 0x80 = Z.land old_freq 0x80
        /\ Z.land b 0x7F = Z.land val 0x7F)
  /\ (Z.land (shadow_get (priv g) LTC5599_GAIN_REG) 0xE0 = Z.land old_gain 0xE0
   /\ (forall j, j <> Z.to_nat LTC5599_GAIN_REG ->
         shadowregs (priv g) !! j = shadowregs (priv d) !! j)
   /\ exists b s, wire g = wire d ++ [([2 * LTC5599_GAIN_REG; b], s)]
        /\ Z.land b 0xE0 = Z.land old_gain 0xE0
        /\ Z.land b 0x1F = Z.land val 0x1F)
  /\ (Z.land (shadow_get (priv p) LTC5599_FREQ_REG) 0x7F = Z.land old_freq 0x7F
   /\ forall b s, In ([2 * LTC5599_FREQ_REG; b], s) (wire p) ->
        In ([2 * LTC5599_FREQ_REG; b], s) (wire d)
        \/ Z.land b 0x7F = Z.land old_freq 0x7F)
  /\ Z.land (shadow_get (priv F) LTC5599_FREQ_REG) 0x80 = Z.land old_freq 0x80
  /\ Z.land (shadow_get (priv G) LTC5599_GAIN_REG) 0xE0 = Z.land old_gain 0xE0
  /\ Z.land (shadow_get (priv P) LTC5599_FREQ_REG) 0x7F = Z.land old_freq 0x7F.
Proof.
  intros old_freq old_gain f g p F G P.
  split; [|split; [|split; [|split; [|split]]]].
  - split; [apply write_freq_keeps_sign|]. subst f.
    rewrite ltc5599_write_freq_commit. split.
    + intros j Hj. now apply commit_others.
    + destruct (commit_wire LTC5599_FREQ_REG (freq_byte (priv d) val) d) as [s Hw].
      exists (freq_byte (priv d) val), s.
      rewrite write_frame_bytes in Hw
        by (first [apply freq_byte_u8 | unfold LTC5599_FREQ_REG; lia]).
      split; [exact Hw|]. split; [apply freq_byte_bit7 | apply freq_byte_low7].
  - split; [apply write_gain_keeps_mode|]. subst g.
    rewrite ltc5599_write_gain_commit. split.
    + intros j Hj. now apply commit_others.
    + destruct (commit_wire LTC5599_GAIN_REG (gain_byte (priv d) val) d) as [s Hw].
      exists (gain_byte (priv d) val), s.
      rewrite write_frame_bytes in Hw
        by (first [apply gain_byte_u8 | unfold LTC5599_GAIN_REG; lia]).
      split; [exact Hw|]. split; [apply gain_byte_bits567 | apply gain_byte_low5].
  - split; [apply write_phase_keeps_tuning_word|].
    intros b s Hin. apply write_phase_frames in Hin as [Hin | [Hin | Hin]].
    + now left.
    + discriminate Hin.
    + right. injection Hin as ->. apply sign_byte_low7.
  - subst F. unfold ltc5599_write_raw.
    destruct ((val <? 30000000) || (val >? 1300000000)); [reflexivity|].
    apply write_freq_keeps_sign.
  - subst G. unfold ltc5599_write_raw.
    destruct (val >? 0); [reflexivity|]. apply write_gain_keeps_mode.
  - subst P. unfold ltc5599_write_raw.
    destruct ((val <? -240) || (val >? 239)); [reflexivity|].
    apply write_phase_keeps_tuning_word.
Qed.

(** ** Checking a decidable property over an interval *)

Lemma forall_range (P : Z -> bool) (lo : Z) (n : nat) :
  forallb P (map (fun i => lo + Z.of_nat i) (seq 0 n)) = true ->
  forall v, lo <= v < lo + Z.of_nat n -> P v = true.
Proof.
  intros Hall v Hv. rewrite forallb_forall in Hall. apply Hall.
  apply in_map_iff. exists (Z.to_nat (v - lo)). split; [lia|].
  apply in_seq. lia.
Qed.

(** ** The tuning-word table *)

Lemma freq_to_ctrl_word_top (khz : Z) :
  khz > 1249100 -> freq_to_ctrl_word khz = 1.
Proof.
  intros Hk. unfold freq_to_ctrl_word.
  destruct (Z.gtb_spec khz 1249100); [reflexivity | lia].
Qed.

Lemma freq_to_ctrl_word_below_top (khz : Z) :
  khz <= 1249100 -> 2 <= freq_to_ctrl_word khz <= 121.
Proof.
  intros Hk. unfold freq_to_ctrl_word.
  destruct (Z.gtb_spec khz 1249100); [lia|].
  repeat match goal with
  | |- context [if ?c then _ else _] => destruct c; [lia|]
  end.
  lia.
Qed.

Lemma freq_to_ctrl_word_bottom (khz : Z) :
  khz <= 93000 -> freq_to_ctrl_word khz = 121.
Proof.
  intros Hk. unfold freq_to_ctrl_word.
  repeat match goal with
  | |- context [if ?k >? ?t then _ else _] =>
      destruct (Z.gtb_spec k t); [lia|]
  end.
  reflexivity.
Qed.

Lemma write_freq_frame {B : Type} `{SpiBus B} (d : iio_dev B) (val : Z) :
  exists b s,
    wire (ltc5599_write_freq val d).2 = wire d ++ [([2 * LTC5599_FREQ_REG; b], s)]
    /\ Z.land b 0x80 = Z.land (shadow_get (priv d) LTC5599_FREQ_REG) 0x80
    /\ Z.land b 0x7F = Z.land val 0x7F.
Proof.
  rewrite ltc5599_write_freq_commit.
  destruct (commit_wire LTC5599_FREQ_REG (freq_byte (priv d) val) d) as [s Hw].
  exists (freq_byte (priv d) val), s.
  rewrite write_frame_bytes in Hw
    by (first [apply freq_byte_u8 | unfold LTC5599_FREQ_REG; lia]).
  split; [exact Hw|]. split; [apply freq_byte_bit7 | apply freq_byte_low7].
Qed.

(** C5. The table compares with a strict "greater than" on the frequency in
    kHz.  The attribute write of 1 300 000 000 Hz is the register write of
    tuning word 1, that of exactly 1 249 100 000 Hz is the write of tuning
    word 2, that of 30 000 000 Hz is the write of tuning word 121, and the
    frame each of them sends carries that word in its low seven bits.  In
    general word 1 is chosen exactly above 1 249 100 kHz and word 121 at or
    below 93 000 kHz. *)
Theorem frequency_lookup_thresholds {B : Type} `{SpiBus B}
    (d : iio_dev B) (chan : iio_chan_spec) (val2 : Z) :
  let write hz := ltc5599_write_raw chan hz val2 IIO_CHAN_INFO_FREQUENCY d in
  let sends hz w :=
    exists b s, wire (write hz).2 = wire d ++ [([2 * LTC5599_FREQ_REG; b], s)]
                /\ Z.land b 0x7F = w in
  (freq_to_ctrl_word (Z.quot 1300000000 1000) = 1
   /\ freq_to_ctrl_word (Z.quot 1249100000 1000) = 2
   /\ freq_to_ctrl_word (Z.quot 30000000 1000) = 121)
  /\ (write 1300000000 = ltc5599_write_freq 1 d
   /\ write 1249100000 = ltc5599_write_freq 2 d
   /\ write 30000000 = ltc5599_write_freq 121 d)
  /\ (sends 1300000000 1 /\ sends 1249100000 2 /\ sends 30000000 121)
  /\ (forall khz, khz > 1249100 <-> freq_to_ctrl_word khz = 1)
  /\ (forall khz, khz <= 93000 -> freq_to_ctrl_word khz = 121).
Proof.
  intros write sends.
  assert (E1 : write 1300000000 = ltc5599_write_freq 1 d) by reflexivity.
  assert (E2 : write 1249100000 = ltc5599_write_freq 2 d) by reflexivity.
  assert (E3 : write 30000000 = ltc5599_write_freq 121 d) by reflexivity.
  split; [repeat split|]. split; [repeat split; assumption|]. split; [|split].
  - unfold sends. rewrite E1, E2, E3. repeat split.
    + destruct (write_freq_frame d 1) as (b & s & Hw & _ & Hb). now exists b, s.
    + destruct (write_freq_frame d 2) as (b & s & Hw & _ & Hb). now exists b, s.
    + destruct (write_freq_frame d 121) as (b & s & Hw & _ & Hb). now exists b, s.
  - intros khz. split.
    + apply freq_to_ctrl_word_top.
    + intros Hw. destruct (Z.le_gt_cases khz 1249100) as [Hle|Hgt]; [|lia].
      pose proof (freq_to_ctrl_word_below_top khz Hle). lia.
  - apply freq_to_ctrl_word_bottom.
Qed.

(** ** The read path *)

Lemma freq_poly_cubic (w : Z) :
  0 <= w < 128 ->
  freq_poly w = -553 * w ^ 3 + 198810 * w ^ 2 - 26120002 * w + 1319492809.
Proof.
  intros Hw.
  pose proof (forall_range
    (fun w => freq_poly w =?
              -553 * w ^ 3 + 198810 * w ^ 2 - 26120002 * w + 1319492809)
    0 128 ltac:(vm_compute; reflexivity) w ltac:(lia)) as Hc.
  now apply Z.eqb_eq in Hc.
Qed.

Lemma land_low7_range (x : Z) : 0 <= Z.land x 0x7F < 128.
Proof.
  change 0x7F with (Z.ones 7). rewrite Z.land_ones by lia.
  apply Z.mod_pos_bound. lia.
Qed.

Section ReadPath.

Context {B : Type} `{SpiBus B}.

Lemma ltc5599_read_freq_ok (d : iio_dev B) (val : Z) rx b' :
  shadow_wf (priv d) ->
  spi_sync (spi d) (read_frame LTC5599_FREQ_REG) = (0, rx, b') ->
  ltc5599_read_freq val d =
    ((0, Z.land (u8 (nth 1 rx 0)) LTC5599_FREQ_MASK),
     cached LTC5599_FREQ_REG (u8 (nth 1 rx 0))
       (sent (read_frame LTC5599_FREQ_REG) 0 b' d)).
Proof.
  intros Hwf E. unfold ltc5599_read_freq, bind.
  rewrite (ltc5599_read_eq _ _ _ _ _ _ E).
  cbn [fst snd Z.ltb Z.compare failed Z.eqb negb modify_priv get_priv ret priv].
  unfold cached. cbn [priv spi wire]. do 3 f_equal.
  rewrite (shadow_get_set_eq
             (priv (sent (read_frame LTC5599_FREQ_REG) 0 b' d)))
    by (first [exact Hwf | unfold LTC5599_FREQ_REG; lia]).
  apply u8_idem.
Qed.

End ReadPath.

(** C6. When the transfer succeeds, a frequency read returns [IIO_VAL_INT]
    and the cubic -553 w^3 + 198810 w^2 - 26120002 w + 1319492809 at [w], the
    low seven bits of the byte the frequency register answered with; that
    byte is what the shadow cache holds afterwards, and the second output
    cell is left alone. *)
Theorem frequency_read_polynomial {B : Type} `{SpiBus B}
    (d : iio_dev B) (chan : iio_chan_spec) (val val2 : Z)
    (rx : list Z) (b' : B) :
  shadow_wf (priv d) ->
  spi_sync (spi d) [2 * LTC5599_FREQ_REG + 1; 0xFF] = (0, rx, b') ->
  let r := ltc5599_read_raw chan val val2 IIO_CHAN_INFO_FREQUENCY d in
  let reg := u8 (nth 1 rx 0) in
  let w := Z.land reg 0x7F in
  0 <= w < 128
  /\ r.1 = (IIO_VAL_INT,
            (-553 * w ^ 3 + 198810 * w ^ 2 - 26120002 * w + 1319492809, val2))
  /\ shadow_get (priv r.2) LTC5599_FREQ_REG = reg
  /\ wire r.2 = wire d ++ [([2 * LTC5599_FREQ_REG + 1; 0xFF], 0)].
Proof.
  intros Hwf E r reg w.
  assert (Hw : 0 <= w < 128) by apply land_low7_range.
  split; [exact Hw|]. subst r. unfold ltc5599_read_raw, bind.
  change [2 * LTC5599_FREQ_REG + 1; 0xFF] with (read_frame LTC5599_FREQ_REG) in *.
  rewrite (ltc5599_read_freq_ok d 0 rx b' Hwf E).
  cbn [fst snd failed Z.eqb negb ret]. fold reg.
  change (Z.land reg LTC5599_FREQ_MASK) with w.
  rewrite (freq_poly_cubic w Hw). split; [reflexivity|]. split; [|reflexivity].
  cbn [priv cached].
  rewrite (shadow_get_set_eq (priv (sent (read_frame LTC5599_FREQ_REG) 0 b' d)))
    by (first [exact Hwf | unfold LTC5599_FREQ_REG; lia]).
  apply u8_idem.
Qed.

Lemma frequency_read_polynomial_witness :
  shadow_wf (priv (probed [])) /\
  (ltc5599_read_raw (LTC5599_CHANNEL 0) 7 9 IIO_CHAN_INFO_FREQUENCY (probed [])).1
  = (IIO_VAL_INT,
     (-553 * 46 ^ 3 + 198810 * 46 ^ 2 - 26120002 * 46 + 1319492809, 9)).
Proof.
  assert (Hwf : shadow_wf (priv (probed []))) by reflexivity.
  split; [exact Hwf|].
  exact (proj1 (proj2
    (frequency_read_polynomial (probed []) (LTC5599_CHANNEL 0) 7 9
       [0; 0x2E] (spi (probed [])) Hwf eq_refl))).
Defined.

(** ** Running against the register-file device *)

Lemma read_frame_bytes (reg : Z) :
  0 <= reg < 128 -> read_frame reg = [2 * reg + 1; 0xFF].
Proof.
  intros Hr. unfold read_frame. f_equal.
  rewrite (u8_small reg) by lia.
  change 0x7F with (Z.ones 7). rewrite Z.land_ones by lia.
  rewrite (Z.mod_small reg) by lia. rewrite Z.shiftl_mul_pow2 by lia.
  change (2 ^ 1) with 2. unfold LTC5599_READ_OPERATION.
  assert (Hl : Z.land (reg * 2) 1 = 0).
  { change 1 with (Z.ones 1) at 1. rewrite Z.land_ones by lia.
    change (2 ^ 1) with 2. apply Z.mod_mul. lia. }
  pose proof (Z.add_lor_land (reg * 2) 1) as Ha. rewrite Hl in Ha.
  rewrite u8_small by lia. lia.
Qed.

Lemma healthy_step (c : chip) (tx : list Z) :
  healthy c ->
  exists c0, spi_sync c tx = chip_exec c0 tx /\ regs c0 = regs c /\ healthy c0.
Proof.
  unfold healthy, spi_sync, chip_bus, chip_sync. destruct c as [rg [|s rest]]; cbn [faults regs].
  - intros _. eexists; repeat split. constructor.
  - intros Hh. apply Forall_cons in Hh as [-> Hrest].
    cbn. eexists; repeat split. exact Hrest.
Qed.

Lemma chip_exec_write (c : chip) (reg tmp : Z) :
  chip_exec c [2 * reg; tmp] =
    (0, [0; regs c reg],
     {| regs := fun a => if a =? reg then tmp else regs c a; faults := faults c |}).
Proof.
  unfold chip_exec. cbn [nth]. rewrite Z.testbit_even_0.
  rewrite Z.shiftr_div_pow2 by lia. change (2 ^ 1) with 2.
  rewrite (Z.mul_comm 2 reg), Z.div_mul by lia. reflexivity.
Qed.

Lemma chip_exec_read (c : chip) (reg pad : Z) :
  chip_exec c [2 * reg + 1; pad] = (0, [0; regs c reg], c).
Proof.
  unfold chip_exec. cbn [nth]. rewrite Z.testbit_odd_0.
  rewrite Z.shiftr_div_pow2 by lia. change (2 ^ 1) with 2.
  replace ((2 * reg + 1) / 2) with reg; [reflexivity|].
  apply Z.div_unique with (r := 1); lia.
Qed.

Lemma chip_commit (d : iio_dev chip) (reg tmp : Z) :
  healthy (spi d) -> 0 <= reg < 128 -> u8 tmp = tmp ->
  exists c',
    commit reg tmp d = (0, cached reg tmp (sent [2 * reg; tmp] 0 c' d))
    /\ healthy c'
    /\ regs c' = (fun a => if a =? reg then tmp else regs (spi d) a).
Proof.
  intros Hh Hr Hu.
  destruct (healthy_step (spi d) [2 * reg; tmp] Hh) as (c0 & E & Hregs & Hh0).
  rewrite chip_exec_write in E.
  rewrite <- (write_frame_bytes reg tmp Hr Hu) in E |- *.
  eexists. rewrite (commit_eq (H := chip_bus) _ _ _ _ _ _ E).
  change (failed 0) with false.
  split; [reflexivity|]. split; [exact Hh0|]. cbn [regs]. now rewrite Hregs.
Qed.

Lemma chip_read (d : iio_dev chip) (reg val : Z) :
  healthy (spi d) -> 0 <= reg < 128 ->
  exists c',
    ltc5599_read reg val d =
      ((0, u8 (regs (spi d) reg)), sent [2 * reg + 1; 0xFF] 0 c' d)
    /\ healthy c'
    /\ regs c' = regs (spi d).
Proof.
  intros Hh Hr.
  destruct (healthy_step (spi d) [2 * reg + 1; 0xFF] Hh) as (c0 & E & Hregs & Hh0).
  rewrite chip_exec_read in E. rewrite <- (read_frame_bytes reg Hr) in E |- *.
  exists c0. rewrite (ltc5599_read_eq (H := chip_bus) _ _ _ _ _ _ E).
  cbn [Z.ltb Z.compare nth].
  rewrite Hregs. repeat split; assumption.
Qed.

(** ** The codecs, value by value *)

Lemma gainrat_byte_spec (v : Z) :
  gainrat_byte v = Z.lxor (Z.land v 0xFF) 0x80.
Proof.
  unfold gainrat_byte, LTC5599_IQ_GAINRAT_VALUE.
  change 0xFF with (Z.ones 8). change 0x80 with (2 ^ 7). bitwise.
Qed.

Lemma gainrat_decode_encode (v : Z) :
  -127 <= v <= 127 -> s32 (gainrat_byte v - 128) = v.
Proof.
  intros Hv.
  pose proof (forall_range (fun v => s32 (gainrat_byte v - 128) =? v)
                (-127) 255 ltac:(vm_compute; reflexivity) v ltac:(lia)) as Hc.
  now apply Z.eqb_eq in Hc.
Qed.

Lemma offset_byte_spec (v : Z) : -127 <= v <= 127 -> offset_byte v = v + 128.
Proof.
  intros Hv. unfold offset_byte, LTC5599_OFFS_VALUE.
  destruct (Z.gtb_spec v 127); [lia|]. destruct (Z.ltb_spec v (-127)); [lia|].
  rewrite s32_small by lia. change 0xFF with (Z.ones 8).
  rewrite Z.land_ones by lia. rewrite (Z.mod_small (v + 128)) by lia.
  apply u8_small. lia.
Qed.

Lemma phase_fields (v : Z) :
  -240 <= v <= 239 ->
  phase_value (phase_byte v) (if v <? -16 then -1 else 1) = v
  /\ Z.land (phase_byte v) 0x1F = Z.lxor (Z.land v 0x1F) 0x10
  /\ Z.shiftr (phase_byte v) 5 =
     (if v >? 0 then Z.quot (v + 16) 32 else Z.quot (15 - v) 32).
Proof.
  intros Hv.
  pose proof (forall_range phase_fields_ok (-240) 480
                ltac:(vm_compute; reflexivity) v ltac:(lia)) as Hc.
  unfold phase_fields_ok in Hc.
  apply andb_prop in Hc as [Hc H3]. apply andb_prop in Hc as [H1 H2].
  apply Z.eqb_eq in H1, H2, H3. auto.
Qed.

(** C3. With a device that stores what it is sent and transfers that all
    succeed, writing a quadrature gain ratio [v] in -127 .. 127 stores
    [(v & 0xFF) ^ 0x80] in the gain-ratio register, and reading the
    attribute back returns [v]: the stored byte minus 128. *)
Theorem gainratio_roundtrip (d : iio_dev chip) (chan : iio_chan_spec)
    (v val2 out out2 : Z) :
  -127 <= v <= 127 ->
  healthy (spi d) ->
  shadow_wf (priv d) ->
  let w := ltc5599_write_raw chan v val2 IIO_CHAN_INFO_QUADRATURE_CORRECTION_RAW d in
  let r := ltc5599_read_raw chan out out2 IIO_CHAN_INFO_QUADRATURE_CORRECTION_RAW w.2 in
  w.1 = 0
  /\ regs (spi w.2) LTC5599_IQ_GAINRAT_REG = Z.lxor (Z.land v 0xFF) 0x80
  /\ regs (spi w.2) LTC5599_IQ_GAINRAT_REG - 128 = v
  /\ r.1 = (IIO_VAL_INT, (v, out2)).
Proof.
  intros Hv Hh Hwf w r.
  assert (Hreg : 0 <= LTC5599_IQ_GAINRAT_REG < 128) by (cbv; split; congruence).
  assert (Hu : u8 (gainrat_byte v) = gainrat_byte v) by apply u8_idem.
  assert (Hdec := gainrat_decode_encode v Hv).
  assert (Hsmall : gainrat_byte v - 128 = v).
  { rewrite <- Hdec at 2. symmetry. apply s32_small.
    pose proof (u8_range (Z.lxor (u8 (LTC5599_IQ_GAINRAT_VALUE v)) 0x80)).
    unfold gainrat_byte. lia. }
  assert (Ew : w = commit LTC5599_IQ_GAINRAT_REG (gainrat_byte v) d).
  { subst w. unfold ltc5599_write_raw.
    destruct (Z.ltb_spec v (-127)), (Z.gtb_spec v 127); try lia.
    cbn [orb]. apply ltc5599_write_iqgainratio_commit. }
  destruct (chip_commit d _ _ Hh Hreg Hu) as (c1 & E1 & Hh1 & Hr1).
  rewrite E1 in Ew. subst r. rewrite Ew. cbn [fst snd spi cached sent].
  rewrite Hr1. cbn beta. change (LTC5599_IQ_GAINRAT_REG =? LTC5599_IQ_GAINRAT_REG) with true.
  cbv iota. split; [reflexivity|]. split; [apply gainrat_byte_spec|].
  split; [exact Hsmall|].
  set (d1 := cached _ _ _).
  assert (Hwf1 : shadow_wf (priv d1)) by (apply shadow_set_wf; exact Hwf).
  destruct (chip_read d1 LTC5599_IQ_GAINRAT_REG 0 Hh1 Hreg) as (c2 & E2 & _ & _).
  unfold ltc5599_read_raw, ltc5599_read_iqgainratio, bind. rewrite E2.
  cbn [fst snd failed Z.eqb negb modify_priv get_priv ret priv].
  rewrite (shadow_get_set_eq (priv (sent _ 0 c2 d1)))
    by (first [exact Hwf1 | unfold LTC5599_IQ_GAINRAT_REG; lia]).
  subst d1. cbn [spi cached sent]. rewrite Hr1. cbn beta.
  change (LTC5599_IQ_GAINRAT_REG =? LTC5599_IQ_GAINRAT_REG) with true. cbv iota.
  rewrite !Hu, Hdec. reflexivity.
Qed.

Lemma gainratio_roundtrip_witness :
  (-127 <= -100 <= 127) /\ healthy (spi (probed [0; 0])) /\
  shadow_wf (priv (probed [0; 0])) /\
  (ltc5599_read_raw (LTC5599_CHANNEL 0) 0 0 IIO_CHAN_INFO_QUADRATURE_CORRECTION_RAW
     (ltc5599_write_raw (LTC5599_CHANNEL 0) (-100) 0
        IIO_CHAN_INFO_QUADRATURE_CORRECTION_RAW (probed [0; 0])).2).1
  = (IIO_VAL_INT, (-100, 0)).
Proof.
  assert (Hv : -127 <= -100 <= 127) by (split; discriminate).
  assert (Hh : healthy (spi (probed [0; 0]))) by (repeat constructor).
  assert (Hwf : shadow_wf (priv (probed [0; 0]))) by reflexivity.
  split; [exact Hv|]. split; [exact Hh|]. split; [exact Hwf|].
  exact (proj2 (proj2 (proj2
    (gainratio_roundtrip (probed [0; 0]) (LTC5599_CHANNEL 0) (-100) 0 0 0
       Hv Hh Hwf)))).
Defined.

(** C4. With a device that stores what it is sent and transfers that all
    succeed, writing an offset [v] in -127 .. 127 on channel 0 or 1 stores
    [v + 128] in that channel's offset register, and reading the offset of
    the same channel back returns [v].  For such a value the attribute write
    is the call of [ltc5599_write_offset] on the channel's index. *)
Theorem offset_roundtrip (d : iio_dev chip) (chan : iio_chan_spec)
    (v val2 out out2 : Z) :
  -127 <= v <= 127 ->
  In chan ltc5599_channels ->
  healthy (spi d) ->
  shadow_wf (priv d) ->
  let w := ltc5599_write_raw chan v val2 IIO_CHAN_INFO_OFFSET d in
  let r := ltc5599_read_raw chan out out2 IIO_CHAN_INFO_OFFSET w.2 in
  w = ltc5599_write_offset (address chan) v d
  /\ w.1 = 0
  /\ regs (spi w.2) (LTC5599_OFFSI_REG + address chan) = v + 128
  /\ r = (let q := ltc5599_read_offset (address chan) out w.2 in
          ((IIO_VAL_INT, (q.1.2, out2)), q.2))
  /\ r.1 = (IIO_VAL_INT, (v, out2)).
Proof.
  intros Hv Hchan Hh Hwf w r.
  set (c := address chan).
  assert (Hc : c = 0 \/ c = 1).
  { subst c. destruct Hchan as [<- | [<- | []]]; [left | right]; reflexivity. }
  assert (Hc32 : u32 (address chan) = c).
  { fold c. apply u32_small. lia. }
  set (reg := LTC5599_OFFSI_REG + c).
  assert (Hreg : 0 <= reg < 128) by (subst reg; unfold LTC5599_OFFSI_REG; lia).
  assert (Hreg32 : 0 <= reg < 32) by (subst reg; unfold LTC5599_OFFSI_REG; lia).
  assert (Hb := offset_byte_spec v Hv).
  assert (Hu : u8 (offset_byte v) = offset_byte v) by (rewrite Hb; apply u8_small; lia).
  assert (Ew0 : w = ltc5599_write_offset c v d).
  { subst w. unfold ltc5599_write_raw. rewrite Hc32.
    destruct (Z.ltb_spec v (-127)), (Z.gtb_spec v 127); try lia. reflexivity. }
  split; [exact Ew0|].
  assert (Ew : w = commit reg (offset_byte v) d).
  { rewrite Ew0. apply ltc5599_write_offset_commit. lia. }
  destruct (chip_commit d _ _ Hh Hreg Hu) as (c1 & E1 & Hh1 & Hr1).
  rewrite E1 in Ew. subst r. rewrite Ew. cbn [fst snd spi cached sent].
  rewrite Hr1. cbn beta. rewrite Z.eqb_refl.
  split; [reflexivity|]. split; [exact Hb|].
  set (d1 := cached _ _ _).
  assert (Hwf1 : shadow_wf (priv d1)) by (apply shadow_set_wf; exact Hwf).
  destruct (chip_read d1 reg 0 Hh1 Hreg) as (c2 & E2 & _ & _).
  assert (Eq : ltc5599_read_offset c out d1 =
               ((0, v), cached reg (u8 (regs (spi d1) reg)) (sent [2 * reg + 1; 0xFF] 0 c2 d1))).
  { unfold ltc5599_read_offset. destruct (Z.gtb_spec c 1); [lia|].
    unfold bind. fold reg. rewrite E2.
    cbn [fst snd failed Z.eqb negb modify_priv get_priv ret priv].
    rewrite (shadow_get_set_eq (priv (sent _ 0 c2 d1)))
      by (first [exact Hwf1 | exact Hreg32]).
    subst d1. cbn [spi cached sent]. rewrite Hr1. cbn beta. rewrite Z.eqb_refl.
    rewrite !Hu, Hb. replace (v + 128 - 128) with v by lia.
    rewrite s32_small by lia. reflexivity. }
  unfold ltc5599_read_raw, bind. rewrite Hc32, Eq.
  cbn [fst snd failed Z.eqb negb ret]. split; reflexivity.
Qed.

Lemma offset_roundtrip_witness :
  (-127 <= -127 <= 127) /\ In (LTC5599_CHANNEL 1) ltc5599_channels /\
  healthy (spi (probed [])) /\ shadow_wf (priv (probed [])) /\
  (ltc5599_read_raw (LTC5599_CHANNEL 1) 0 0 IIO_CHAN_INFO_OFFSET
     (ltc5599_write_raw (LTC5599_CHANNEL 1) (-127) 0 IIO_CHAN_INFO_OFFSET
        (probed [])).2).1
  = (IIO_VAL_INT, (-127, 0)).
Proof.
  assert (Hv : -127 <= -127 <= 127) by (split; discriminate).
  assert (Hc : In (LTC5599_CHANNEL 1) ltc5599_channels) by (right; left; reflexivity).
  assert (Hh : healthy (spi (probed []))) by constructor.
  assert (Hwf : shadow_wf (priv (probed []))) by reflexivity.
  split; [exact Hv|]. split; [exact Hc|]. split; [exact Hh|]. split; [exact Hwf|].
  exact (proj2 (proj2 (proj2 (proj2
    (offset_roundtrip (probed []) (LTC5599_CHANNEL 1) (-127) 0 0 0
       Hv Hc Hh Hwf))))).
Defined.

(** C2. With a device that stores what it is sent and transfers that all
    succeed, writing a phase balance [v] in -240 .. 239 puts the fine field
    [(v & 0x1F) ^ 0x10] in bits 0-4 and the coarse field in bits 5-7 of the
    phase register, sets bit 7 of the frequency register exactly when
    [v >= -16], and reading the phase balance back returns [v]. *)
Theorem phasebalance_roundtrip (d : iio_dev chip) (chan : iio_chan_spec)
    (v val2 out out2 : Z) :
  -240 <= v <= 239 ->
  healthy (spi d) ->
  let w := ltc5599_write_raw chan v val2 IIO_CHAN_INFO_PHASE d in
  let r := ltc5599_read_raw chan out out2 IIO_CHAN_INFO_PHASE w.2 in
  let phase_reg := regs (spi w.2) LTC5599_IQ_PHASEBAL_REG in
  let freq_reg := regs (spi w.2) LTC5599_FREQ_REG in
  w.1 = 0
  /\ Z.land phase_reg 0x1F = Z.lxor (Z.land v 0x1F) 0x10
  /\ Z.shiftr phase_reg 5 =
     (if v >? 0 then Z.quot (v + 16) 32 else Z.quot (15 - v) 32)
  /\ Z.land freq_reg 0x80 = (if v <? -16 then 0 else 0x80)
  /\ r.1 = (IIO_VAL_INT, (v, out2)).
Proof.
  intros Hv Hh w r phase_reg freq_reg.
  destruct (phase_fields v Hv) as (Hval & Hfine & Hcoarse).
  assert (Hr5 : 0 <= LTC5599_IQ_PHASEBAL_REG < 128) by (cbv; split; congruence).
  assert (Hr0 : 0 <= LTC5599_FREQ_REG < 128) by (cbv; split; congruence).
  set (pb := phase_byte v) in *. set (sb := sign_byte (priv d) v).
  assert (Ew : w = bind (commit LTC5599_IQ_PHASEBAL_REG pb)
                     (fun r => if failed r then ret r
                               else commit LTC5599_FREQ_REG sb) d).
  { subst w. unfold ltc5599_write_raw.
    destruct (Z.ltb_spec v (-240)), (Z.gtb_spec v 239); try lia.
    apply ltc5599_write_iqphasebalance_commit. }
  destruct (chip_commit d _ _ Hh Hr5 (phase_byte_u8 v)) as (c1 & E1 & Hh1 & Hg1).
  fold pb in E1, Hg1. unfold bind in Ew. rewrite E1 in Ew.
  change (failed 0) with false in Ew. cbv iota in Ew.
  set (d1 := cached LTC5599_IQ_PHASEBAL_REG pb _) in *.
  destruct (chip_commit d1 _ _ Hh1 Hr0 (sign_byte_u8 (priv d) v))
    as (c2 & E2 & Hh2 & Hg2).
  fold sb in E2, Hg2. rewrite E2 in Ew.
  set (d2 := cached LTC5599_FREQ_REG sb _) in *.
  assert (Hp : regs (spi d2) LTC5599_IQ_PHASEBAL_REG = pb).
  { subst d2. cbn [spi cached sent]. rewrite Hg2. cbn beta.
    change (LTC5599_IQ_PHASEBAL_REG =? LTC5599_FREQ_REG) with false. cbv iota.
    subst d1. cbn [spi cached sent]. rewrite Hg1. cbn beta.
    now rewrite Z.eqb_refl. }
  assert (Hf : regs (spi d2) LTC5599_FREQ_REG = sb).
  { subst d2. cbn [spi cached sent]. rewrite Hg2. cbn beta.
    now rewrite Z.eqb_refl. }
  subst phase_reg freq_reg r. rewrite Ew. cbn [fst snd]. rewrite Hp, Hf.
  split; [reflexivity|]. split; [exact Hfine|]. split; [exact Hcoarse|].
  split; [apply sign_byte_bit7|].
  assert (Hh2' : healthy (spi d2)) by exact Hh2.
  destruct (chip_read d2 LTC5599_FREQ_REG 0 Hh2' Hr0) as (c3 & E3 & Hh3 & Hg3).
  rewrite Hf in E3. unfold sb in E3 at 1. rewrite sign_byte_u8 in E3. fold sb in E3.
  set (d3 := cached LTC5599_FREQ_REG sb (sent [2 * LTC5599_FREQ_REG + 1; 0xFF] 0 c3 d2)).
  assert (Hh3' : healthy (spi d3)) by exact Hh3.
  destruct (chip_read d3 LTC5599_IQ_PHASEBAL_REG sb Hh3' Hr5) as (c4 & E4 & _ & _).
  assert (Hp3 : regs (spi d3) LTC5599_IQ_PHASEBAL_REG = pb).
  { subst d3. cbn [spi cached sent]. now rewrite Hg3. }
  rewrite Hp3 in E4. unfold pb in E4 at 1. rewrite phase_byte_u8 in E4. fold pb in E4.
  unfold ltc5599_read_raw, ltc5599_read_iqphasebalance, bind. rewrite E3.
  cbn [fst snd failed Z.eqb negb modify_priv ret].
  change ({| priv := shadow_set LTC5599_FREQ_REG sb (priv (sent _ 0 c3 d2));
             spi := spi (sent [2 * LTC5599_FREQ_REG + 1; 0xFF] 0 c3 d2);
             wire := wire (sent [2 * LTC5599_FREQ_REG + 1; 0xFF] 0 c3 d2) |})
    with d3.
  rewrite E4. cbn [fst snd failed Z.eqb negb modify_priv ret].
  fold (phase_value pb (if negb (Z.land sb LTC5599_IQ_PHASEBAL_EXT_SIGN_BIT =? 0)
                        then 1 else -1)).
  change LTC5599_IQ_PHASEBAL_EXT_SIGN_BIT with 0x80.
  unfold sb. rewrite sign_byte_bit7.
  replace (if negb ((if v <? -16 then 0 else 0x80) =? 0) then 1 else -1)
    with (if v <? -16 then -1 else 1) by (destruct (v <? -16); reflexivity).
  rewrite Hval. reflexivity.
Qed.

Lemma phasebalance_roundtrip_witness :
  (-240 <= -240 <= 239) /\ healthy (spi (probed [])) /\
  (ltc5599_read_raw (LTC5599_CHANNEL 0) 0 0 IIO_CHAN_INFO_PHASE
     (ltc5599_write_raw (LTC5599_CHANNEL 0) (-240) 0 IIO_CHAN_INFO_PHASE
        (probed [])).2).1
  = (IIO_VAL_INT, (-240, 0)).
Proof.
  assert (Hv : -240 <= -240 <= 239) by (split; discriminate).
  assert (Hh : healthy (spi (probed []))) by constructor.
  split; [exact Hv|]. split; [exact Hh|].
  exact (proj2 (proj2 (proj2 (proj2
    (phasebalance_roundtrip (probed []) (LTC5599_CHANNEL 0) (-240) 0 0 0 Hv Hh))))).
Defined.

(** * Further properties of the driver *)

(** ** The tuning-word table as a whole *)

Lemma freq_to_ctrl_word_scan (khz : Z) :
  freq_to_ctrl_word khz = scan ctrl_table 121 khz.
Proof. reflexivity. Qed.

Lemma ascending_bounds (lo : Z) (tbl : list (Z * Z)) (dflt : Z) :
  ascending lo tbl dflt = true -> lo <= dflt.
Proof.
  revert lo. induction tbl as [|[t w] rest IH]; intros lo; cbn [ascending].
  - apply Z.leb_le.
  - intros Ha. apply andb_prop in Ha as [Hlo Hrest].
    apply Z.leb_le in Hlo. specialize (IH w Hrest). lia.
Qed.

Lemma scan_range (lo : Z) (tbl : list (Z * Z)) (dflt khz : Z) :
  ascending lo tbl dflt = true -> lo <= scan tbl dflt khz <= dflt.
Proof.
  revert lo. induction tbl as [|[t w] rest IH]; intros lo; cbn [ascending scan].
  - intros Ha. apply Z.leb_le in Ha. lia.
  - intros Ha. apply andb_prop in Ha as [Hlo Hrest]. apply Z.leb_le in Hlo.
    pose proof (ascending_bounds w rest dflt Hrest).
    specialize (IH w Hrest). destruct (khz >? t); lia.
Qed.

Lemma scan_antitone (lo : Z) (tbl : list (Z * Z)) (dflt k1 k2 : Z) :
  ascending lo tbl dflt = true -> k1 <= k2 ->
  scan tbl dflt k2 <= scan tbl dflt k1.
Proof.
  intros Ha Hk. revert lo Ha.
  induction tbl as [|[t w] rest IH]; intros lo Ha; cbn [ascending scan] in *.
  - lia.
  - apply andb_prop in Ha as [_ Hrest].
    destruct (Z.gtb_spec k2 t) as [H2|H2].
    + destruct (Z.gtb_spec k1 t) as [H1|H1]; [lia|].
      apply (scan_range w rest dflt k1 Hrest).
    + destruct (Z.gtb_spec k1 t) as [H1|H1]; [lia|]. exact (IH w Hrest).
Qed.

Lemma freq_to_ctrl_word_order (k1 k2 : Z) :
  k1 <= k2 ->
  1 <= freq_to_ctrl_word k2
  /\ freq_to_ctrl_word k2 <= freq_to_ctrl_word k1
  /\ freq_to_ctrl_word k1 <= 121.
Proof.
  intros Hk.
  rewrite (freq_to_ctrl_word_scan k1), (freq_to_ctrl_word_scan k2).
  assert (Ha : ascending 1 ctrl_table 121 = true) by (vm_compute; reflexivity).
  pose proof (scan_range 1 ctrl_table 121 k1 Ha).
  pose proof (scan_range 1 ctrl_table 121 k2 Ha).
  pose proof (scan_antitone 1 ctrl_table 121 k1 k2 Ha Hk).
  clear Ha. lia.
Qed.

(** X5. The tuning word never increases with the frequency and always lies
    in 1 .. 121: for [k1 <= k2] in kHz, [1 <= word k2 <= word k1 <= 121]. *)
Theorem freq_to_ctrl_word_antitone (k1 k2 : Z) :
  k1 <= k2 ->
  1 <= freq_to_ctrl_word k2
  /\ freq_to_ctrl_word k2 <= freq_to_ctrl_word k1
  /\ freq_to_ctrl_word k1 <= 121.
Proof.
  intros Hk. destruct (freq_to_ctrl_word_order k1 k2 Hk) as (H1 & H2 & H3).
  repeat split; assumption.
Qed.

Lemma freq_to_ctrl_word_antitone_witness :
  500000 <= 500001 /\
  1 <= freq_to_ctrl_word 500001
  /\ freq_to_ctrl_word 500001 <= freq_to_ctrl_word 500000
  /\ freq_to_ctrl_word 500000 <= 121.
Proof.
  assert (Hk : 500000 <= 500001) by discriminate.
  split; [exact Hk|]. exact (freq_to_ctrl_word_antitone 500000 500001 Hk).
Defined.

(** ** The frames of the access layer, for any address *)

Lemma land_u8_low7 (addr : Z) : Z.land (u8 addr) 0x7F = addr mod 128.
Proof.
  unfold u8. change 0x7F with (Z.ones 7). rewrite Z.land_ones by lia.
  apply Z.mod_mod_divide. exists 2. reflexivity.
Qed.

Lemma write_frame_any (addr val : Z) :
  write_frame addr val = [2 * (addr mod 128); val mod 256].
Proof.
  pose proof (Z.mod_pos_bound addr 128 ltac:(lia)) as Ha.
  transitivity (write_frame (addr mod 128) (u8 val)).
  - unfold write_frame. rewrite !land_u8_low7, u8_idem.
    rewrite Z.mod_mod by lia. reflexivity.
  - apply write_frame_bytes; [exact Ha | apply u8_idem].
Qed.

Lemma read_frame_any (addr : Z) :
  read_frame addr = [2 * (addr mod 128) + 1; 0xFF].
Proof.
  pose proof (Z.mod_pos_bound addr 128 ltac:(lia)) as Ha.
  transitivity (read_frame (addr mod 128)).
  - unfold read_frame. rewrite !land_u8_low7.
    rewrite Z.mod_mod by lia. reflexivity.
  - apply read_frame_bytes. exact Ha.
Qed.

(** X4. Whatever the address and the bus, [ltc5599_write] issues exactly one
    transfer, of the two bytes [2 * (addr mod 128)] (read bit clear) and
    [val mod 256], and returns its status; [ltc5599_read] issues exactly one
    transfer of [2 * (addr mod 128) + 1] and [0xFF], returns its status,
    leaves the output cell alone on a negative status and otherwise puts a
    byte in it.  Neither touches the shadow registers. *)
Theorem access_layer_frames {B : Type} `{SpiBus B}
    (d : iio_dev B) (addr val out : Z) :
  let w := ltc5599_write addr val d in
  let r := ltc5599_read addr out d in
  wire w.2 = wire d ++ [([2 * (addr mod 128); val mod 256], w.1)]
  /\ shadowregs (priv w.2) = shadowregs (priv d)
  /\ wire r.2 = wire d ++ [([2 * (addr mod 128) + 1; 0xFF], r.1.1)]
  /\ shadowregs (priv r.2) = shadowregs (priv d)
  /\ (r.1.1 < 0 -> r.1.2 = out)
  /\ (0 <= r.1.1 -> 0 <= r.1.2 < 256).
Proof.
  intros w r. subst w r.
  destruct (spi_sync (spi d) (write_frame addr val)) as [[s1 rx1] b1] eqn:E1.
  destruct (spi_sync (spi d) (read_frame addr)) as [[s2 rx2] b2] eqn:E2.
  rewrite (ltc5599_write_eq _ _ _ _ _ _ E1), (ltc5599_read_eq _ _ _ _ _ _ E2).
  cbn [fst snd]. rewrite !wire_sent, !shadowregs_sent.
  rewrite write_frame_any, read_frame_any.
  repeat split; try reflexivity.
  - destruct (Z.ltb_spec s2 0); [reflexivity | lia].
  - destruct (Z.ltb_spec s2 0); [lia | apply u8_range].
  - destruct (Z.ltb_spec s2 0); [lia | apply u8_range].
Qed.

(** ** The read path in general *)

Section ReadCases.

Context {B : Type} `{SpiBus B}.

Lemma fetch_eq (reg val : Z) (decode : Z -> Z) (d : iio_dev B) s rx b' :
  spi_sync (spi d) (read_frame reg) = (s, rx, b') ->
  fetch reg val decode d =
    if failed s then ((s, val), sent (read_frame reg) s b' d)
    else ((0, decode (shadow_get (shadow_set reg (u8 (nth 1 rx 0)) (priv d)) reg)),
          cached reg (u8 (nth 1 rx 0)) (sent (read_frame reg) s b' d)).
Proof.
  intros E. unfold fetch, bind. rewrite (ltc5599_read_eq _ _ _ _ _ _ E).
  cbn [fst snd]. destruct (failed s) eqn:F; [reflexivity|].
  apply failed_false in F. subst s. reflexivity.
Qed.

Lemma ltc5599_read_freq_fetch (val : Z) (d : iio_dev B) :
  ltc5599_read_freq val d =
    fetch LTC5599_FREQ_REG val (fun x => Z.land x LTC5599_FREQ_MASK) d.
Proof. reflexivity. Qed.

Lemma ltc5599_read_gain_fetch (val : Z) (d : iio_dev B) :
  ltc5599_read_gain val d =
    fetch LTC5599_GAIN_REG val (fun x => Z.land x LTC5599_GAIN_MASK) d.
Proof. reflexivity. Qed.

Lemma ltc5599_read_offset_fetch (chan val : Z) (d : iio_dev B) :
  chan <= 1 ->
  ltc5599_read_offset chan val d =
    fetch (LTC5599_OFFSI_REG + chan) val (fun x => s32 (x - 128)) d.
Proof.
  intros Hc. unfold ltc5599_read_offset.
  destruct (Z.gtb_spec chan 1); [lia | reflexivity].
Qed.

Lemma ltc5599_read_iqgainratio_fetch (val : Z) (d : iio_dev B) :
  ltc5599_read_iqgainratio val d =
    fetch LTC5599_IQ_GAINRAT_REG val (fun x => s32 (x - 128)) d.
Proof. reflexivity. Qed.

(** How a single-register read can end. *)
Lemma fetch_cases (reg val : Z) (decode : Z -> Z) (d : iio_dev B) :
  (exists s b1, s <> 0 /\
     fetch reg val decode d = ((s, val), sent (read_frame reg) s b1 d))
  \/ (exists b1 byte, 0 <= byte < 256 /\
     fetch reg val decode d =
       ((0, decode (shadow_get (shadow_set reg byte (priv d)) reg)),
        cached reg byte (sent (read_frame reg) 0 b1 d))).
Proof.
  destruct (spi_sync (spi d) (read_frame reg)) as [[s rx] b1] eqn:E.
  rewrite (fetch_eq _ _ _ _ _ _ _ E). destruct (failed s) eqn:F.
  - left. exists s, b1. split; [now apply failed_true | reflexivity].
  - right. apply failed_false in F. subst s.
    exists b1, (u8 (nth 1 rx 0)). split; [apply u8_range | reflexivity].
Qed.

(** The three ways a phase-balance read can end. *)
Lemma ltc5599_read_iqphasebalance_cases (val : Z) (d : iio_dev B) :
  let tx1 := read_frame LTC5599_FREQ_REG in
  let tx2 := read_frame LTC5599_IQ_PHASEBAL_REG in
  (exists s b1, s <> 0 /\
     ltc5599_read_iqphasebalance val d = ((s, val), sent tx1 s b1 d))
  \/ (exists s b1 b2 byte0, s <> 0 /\ 0 <= byte0 < 256 /\
     ltc5599_read_iqphasebalance val d =
       ((s, val), sent tx2 s b2 (cached LTC5599_FREQ_REG byte0 (sent tx1 0 b1 d))))
  \/ (exists b1 b2 byte0 byte1, 0 <= byte0 < 256 /\ 0 <= byte1 < 256 /\
     ltc5599_read_iqphasebalance val d =
       ((0, phase_value byte1
              (if negb (Z.land byte0 LTC5599_IQ_PHASEBAL_EXT_SIGN_BIT =? 0)
               then 1 else -1)),
        cached LTC5599_IQ_PHASEBAL_REG byte1
          (sent tx2 0 b2 (cached LTC5599_FREQ_REG byte0 (sent tx1 0 b1 d))))).
Proof.
  intros tx1 tx2. unfold ltc5599_read_iqphasebalance, bind.
  destruct (spi_sync (spi d) tx1) as [[s1 rx1] b1] eqn:E1.
  rewrite (ltc5599_read_eq _ _ _ _ _ _ E1). cbn [fst snd].
  destruct (failed s1) eqn:F1.
  - left. exists s1, b1. split; [now apply failed_true | reflexivity].
  - apply failed_false in F1. subst s1. cbn [Z.ltb Z.compare modify_priv].
    set (byte0 := u8 (nth 1 rx1 0)).
    set (d1 := {| priv := _; spi := _; wire := _ |}).
    change d1 with (cached LTC5599_FREQ_REG byte0 (sent tx1 0 b1 d)).
    clear d1. set (d1 := cached LTC5599_FREQ_REG byte0 (sent tx1 0 b1 d)).
    destruct (spi_sync (spi d1) tx2) as [[s2 rx2] b2] eqn:E2.
    rewrite (ltc5599_read_eq _ _ _ _ _ _ E2). cbn [fst snd].
    destruct (failed s2) eqn:F2.
    + right; left. exists s2, b1, b2, byte0.
      split; [now apply failed_true|]. split; [apply u8_range | reflexivity].
    + right; right. apply failed_false in F2. subst s2.
      exists b1, b2, byte0, (u8 (nth 1 rx2 0)).
      split; [apply u8_range|]. split; [apply u8_range | reflexivity].
Qed.

End ReadCases.

(** A read through [fetch] either logs one failed transfer and hands the
    status back, or logs one successful transfer. *)
Ltac fetch_failure_case d He Hfail reg v dec :=
  let s := fresh "s" in
  let b1 := fresh "b1" in
  let byte := fresh "byte" in
  let Hs := fresh "Hs" in
  let Hb := fresh "Hb" in
  let E := fresh "E" in
  let Hw := fresh "Hw" in
  destruct (fetch_cases reg v dec d)
    as [(s & b1 & Hs & E) | (b1 & byte & Hb & E)];
  rewrite E; cbn [fst snd];
  [ rewrite (Hfail s Hs); cbn [ret fst snd]; split;
    [ intros ? Hw; rewrite wire_sent in Hw;
      apply app_inj_tail in Hw as [_ Hw]; injection Hw as _ ->;
      split; reflexivity
    | intros ? ? Hw; rewrite wire_sent in Hw; apply app_inv_head in Hw;
      discriminate Hw ]
  | change (failed 0) with false; cbn [ret fst snd]; split;
    [ intros ? Hw; rewrite wire_cached, wire_sent in Hw;
      apply app_inj_tail in Hw as [_ Hw]; injection Hw as _ <-;
      contradiction
    | intros ? ? Hw; rewrite wire_cached, wire_sent in Hw;
      apply app_inv_head in Hw; discriminate Hw ] ].

(** X2. A read whose transfer fails hands the failure back and changes
    nothing it was given: if the one transfer an attribute read issued (the
    first one, for the phase balance) ended with a non-zero status [e], the
    read returns [e], both output cells keep their contents and the shadow
    registers are unchanged.  Only the phase-balance read issues a second
    transfer; if that one fails with [e] after the first succeeded, the read
    returns [e] with the output cells untouched, and the only shadow
    register that may have changed is the frequency register. *)
Theorem read_failure_leaves_outputs {B : Type} `{SpiBus B}
    (d : iio_dev B) (chan : iio_chan_spec) (val val2 : Z)
    (info : iio_chan_info_enum) (e : Z) :
  e <> 0 ->
  let r := ltc5599_read_raw chan val val2 info d in
  (forall tx, wire r.2 = wire d ++ [(tx, e)] ->
     r.1 = (e, (val, val2)) /\ shadowregs (priv r.2) = shadowregs (priv d))
  /\ (forall tx1 tx2, wire r.2 = wire d ++ [(tx1, 0); (tx2, e)] ->
     info = IIO_CHAN_INFO_PHASE /\ r.1 = (e, (val, val2)) /\
     forall j, j <> Z.to_nat LTC5599_FREQ_REG ->
       shadowregs (priv r.2) !! j = shadowregs (priv d) !! j).
Proof.
  intros He r.
  assert (Hno : forall (l : list xfer) x y, l <> l ++ [x; y]).
  { intros l x y E. apply (f_equal length) in E. rewrite length_app in E.
    cbn in E. lia. }
  assert (Hfail : forall s, s <> 0 -> failed s = true)
    by (intros s Hs; now apply failed_true).
  destruct info; subst r; unfold ltc5599_read_raw, bind.
  - (* offset *)
    destruct (Z.le_gt_cases (u32 (address chan)) 1) as [Hc|Hc].
    + rewrite ltc5599_read_offset_fetch by exact Hc.
      fetch_failure_case d He Hfail (LTC5599_OFFSI_REG + u32 (address chan))
        val (fun x => s32 (x - 128)).
    + unfold ltc5599_read_offset. destruct (Z.gtb_spec (u32 (address chan)) 1); [|lia].
      cbn. split.
      * intros tx Hw. now apply app_one_neq in Hw.
      * intros tx1 tx2 Hw. now apply Hno in Hw.
  - (* frequency *)
    rewrite ltc5599_read_freq_fetch.
    fetch_failure_case d He Hfail LTC5599_FREQ_REG 0
      (fun x => Z.land x LTC5599_FREQ_MASK).
  - (* gain *)
    rewrite ltc5599_read_gain_fetch.
    fetch_failure_case d He Hfail LTC5599_GAIN_REG 0
      (fun x => Z.land x LTC5599_GAIN_MASK).
  - (* gain ratio *)
    rewrite ltc5599_read_iqgainratio_fetch.
    fetch_failure_case d He Hfail LTC5599_IQ_GAINRAT_REG val
      (fun x => s32 (x - 128)).
  - (* phase balance *)
    destruct (ltc5599_read_iqphasebalance_cases val d)
      as [(s & b1 & Hs & E) | [(s & b1 & b2 & byte0 & Hs & Hb & E)
         | (b1 & b2 & byte0 & byte1 & Hb0 & Hb1 & E)]];
      rewrite E; cbn [fst snd].
    + rewrite (Hfail s Hs). cbn [ret fst snd]. split.
      * intros tx Hw. rewrite wire_sent in Hw. apply app_inj_tail in Hw as [_ Hw].
        injection Hw as _ ->. split; reflexivity.
      * intros tx1 tx2 Hw. rewrite wire_sent in Hw. apply app_inv_head in Hw.
        discriminate Hw.
    + rewrite (Hfail s Hs). cbn [ret fst snd]. split.
      * intros tx Hw. rewrite wire_sent, wire_cached, wire_sent, <- app_assoc in Hw.
        apply app_inv_head in Hw. discriminate Hw.
      * intros tx1 tx2 Hw.
        rewrite wire_sent, wire_cached, wire_sent, <- app_assoc in Hw.
        apply app_inv_head in Hw. cbn in Hw. injection Hw as _ _ ->.
        split; [reflexivity|]. split; [reflexivity|].
        intros j Hj. cbn [priv sent cached shadow_set shadowregs].
        now rewrite list_lookup_insert_ne by congruence.
    + change (failed 0) with false. cbn [ret fst snd]. split.
      * intros tx Hw.
        rewrite wire_cached, wire_sent, wire_cached, wire_sent, <- app_assoc in Hw.
        apply app_inv_head in Hw. discriminate Hw.
      * intros tx1 tx2 Hw.
        rewrite wire_cached, wire_sent, wire_cached, wire_sent, <- app_assoc in Hw.
        apply app_inv_head in Hw. cbn in Hw. injection Hw as _ _ <-. contradiction.
  - (* any other attribute *)
    cbn. split.
    + intros tx Hw. now apply app_one_neq in Hw.
    + intros tx1 tx2 Hw. now apply Hno in Hw.
Qed.

Lemma read_failure_leaves_outputs_witness :
  -5 <> 0 /\
  ((ltc5599_read_raw (LTC5599_CHANNEL 0) 7 9 IIO_CHAN_INFO_HARDWAREGAIN
      (probed [-5])).1 = (-5, (7, 9)) /\
   shadowregs (priv (ltc5599_read_raw (LTC5599_CHANNEL 0) 7 9
                       IIO_CHAN_INFO_HARDWAREGAIN (probed [-5])).2)
   = shadowregs (priv (probed [-5]))) /\
  (ltc5599_read_raw (LTC5599_CHANNEL 0) 7 9 IIO_CHAN_INFO_PHASE
     (probed [0; -5])).1 = (-5, (7, 9)).
Proof.
  assert (He : -5 <> 0) by discriminate.
  split; [exact He|]. split.
  - exact (proj1 (read_failure_leaves_outputs (probed [-5]) (LTC5599_CHANNEL 0)
                    7 9 IIO_CHAN_INFO_HARDWAREGAIN (-5) He) [3; 255] eq_refl).
  - exact (proj1 (proj2 (proj2 (read_failure_leaves_outputs (probed [0; -5])
                    (LTC5599_CHANNEL 0) 7 9 IIO_CHAN_INFO_PHASE (-5) He)
                    [1; 255] [11; 255] eq_refl))).
Defined.

(** ** What a successful read can return *)

Lemma all_ok_nil (txs : list (list Z)) :
  [] = map (fun tx : list Z => (tx, 0)) txs -> txs = [].
Proof. destruct txs; [reflexivity | discriminate]. Qed.

Lemma all_ok_one (f : list Z) (s : Z) (txs : list (list Z)) :
  [(f, s)] = map (fun tx : list Z => (tx, 0)) txs -> s = 0.
Proof.
  destruct txs as [|t rest]; cbn; [discriminate|]. intros E. now injection E.
Qed.

Lemma all_ok_two (f1 f2 : list Z) (s1 s2 : Z) (txs : list (list Z)) :
  [(f1, s1); (f2, s2)] = map (fun tx : list Z => (tx, 0)) txs -> s2 = 0.
Proof.
  destruct txs as [|t [|t2 rest]]; cbn; try discriminate. intros E. now injection E.
Qed.

Lemma freq_poly_range (w : Z) :
  0 <= w < 128 -> 76103246 <= freq_poly w <= 1319492809.
Proof.
  intros Hw.
  pose proof (forall_range
    (fun w => (76103246 <=? freq_poly w) && (freq_poly w <=? 1319492809))
    0 128 ltac:(vm_compute; reflexivity) w ltac:(lia)) as Hc.
  apply andb_prop in Hc as [H1 H2]. apply Z.leb_le in H1, H2. lia.
Qed.

Lemma phase_value_range (byte m : Z) :
  0 <= byte < 256 -> m = 1 \/ m = -1 -> -240 <= phase_value byte m <= 239.
Proof.
  intros Hb Hm.
  assert (Hc : forall m', (m' = 1 \/ m' = -1) ->
            forallb (fun b => (-240 <=? phase_value b m') && (phase_value b m' <=? 239))
                    (map (fun i => 0 + Z.of_nat i) (seq 0 256)) = true).
  { intros m' [-> | ->]; vm_compute; reflexivity. }
  pose proof (forall_range _ 0 256 (Hc m Hm) byte ltac:(lia)) as Hr.
  apply andb_prop in Hr as [H1 H2]. apply Z.leb_le in H1, H2. lia.
Qed.

Lemma land_low5_range (x : Z) : 0 <= Z.land x 0x1F < 32.
Proof.
  change 0x1F with (Z.ones 5). rewrite Z.land_ones by lia.
  apply Z.mod_pos_bound. lia.
Qed.

(** A read through [fetch] whose transfers all succeeded decoded a byte. *)
Ltac fetch_success_case d Hwf Hw reg v dec :=
  let s := fresh "s" in
  let b1 := fresh "b1" in
  let byte := fresh "byte" in
  let Hs := fresh "Hs" in
  let Hb := fresh "Hb" in
  let E := fresh "E" in
  destruct (fetch_cases reg v dec d)
    as [(s & b1 & Hs & E) | (b1 & byte & Hb & E)];
  rewrite E in Hw |- *; cbn [fst snd] in Hw |- *;
  [ rewrite (proj2 (failed_true s) Hs) in Hw; cbn [ret fst snd] in Hw;
    rewrite wire_sent in Hw; apply app_inv_head in Hw;
    apply all_ok_one in Hw; contradiction
  | change (failed 0) with false; cbn [ret fst snd];
    rewrite (shadow_get_set_eq (priv d) reg byte Hwf)
      by (unfold LTC5599_OFFSI_REG, LTC5599_FREQ_REG, LTC5599_GAIN_REG,
            LTC5599_IQ_GAINRAT_REG; lia);
    rewrite (u8_small byte Hb) ].

(** X9. When every transfer of an attribute read succeeded, the read returns
    its success code and a value inside a fixed range: an offset or a gain
    ratio in -128 .. 127, a gain in -31 .. 0 with the second cell set to 0, a
    phase balance in -240 .. 239, a frequency in 76103246 .. 1319492809.
    Apart from the gain, the second output cell keeps its content. *)
Theorem read_value_ranges {B : Type} `{SpiBus B}
    (d : iio_dev B) (chan : iio_chan_spec) (val val2 : Z)
    (info : iio_chan_info_enum) (txs : list (list Z)) :
  shadow_wf (priv d) ->
  txs <> [] ->
  let r := ltc5599_read_raw chan val val2 info d in
  wire r.2 = wire d ++ map (fun tx => (tx, 0)) txs ->
  match info with
  | IIO_CHAN_INFO_OFFSET | IIO_CHAN_INFO_QUADRATURE_CORRECTION_RAW =>
      r.1.1 = IIO_VAL_INT /\ -128 <= r.1.2.1 <= 127 /\ r.1.2.2 = val2
  | IIO_CHAN_INFO_FREQUENCY =>
      r.1.1 = IIO_VAL_INT /\ 76103246 <= r.1.2.1 <= 1319492809 /\ r.1.2.2 = val2
  | IIO_CHAN_INFO_HARDWAREGAIN =>
      r.1.1 = IIO_VAL_INT_PLUS_MICRO_DB /\ -31 <= r.1.2.1 <= 0 /\ r.1.2.2 = 0
  | IIO_CHAN_INFO_PHASE =>
      r.1.1 = IIO_VAL_INT /\ -240 <= r.1.2.1 <= 239 /\ r.1.2.2 = val2
  | IIO_CHAN_INFO_other _ => False
  end.
Proof.
  intros Hwf Hne r Hw.
  assert (Hnil : wire r.2 = wire d -> False).
  { intros E. rewrite E in Hw. rewrite <- (app_nil_r (wire d)) in Hw at 1.
    apply app_inv_head, all_ok_nil in Hw. contradiction. }
  destruct info; subst r; unfold ltc5599_read_raw, bind in *.
  - (* offset *)
    destruct (Z.le_gt_cases (u32 (address chan)) 1) as [Hc|Hc].
    + assert (0 <= u32 (address chan)) by (apply Z.mod_pos_bound; lia).
      rewrite ltc5599_read_offset_fetch in Hw |- * by exact Hc.
      fetch_success_case d Hwf Hw (LTC5599_OFFSI_REG + u32 (address chan))
        val (fun x => s32 (x - 128)).
      rewrite s32_small by lia. repeat split; lia.
    + exfalso. apply Hnil. unfold ltc5599_read_offset.
      destruct (Z.gtb_spec (u32 (address chan)) 1); [reflexivity | lia].
  - (* frequency *)
    rewrite ltc5599_read_freq_fetch in Hw |- *.
    fetch_success_case d Hwf Hw LTC5599_FREQ_REG 0
      (fun x => Z.land x LTC5599_FREQ_MASK).
    pose proof (freq_poly_range (Z.land byte LTC5599_FREQ_MASK)
                  (land_low7_range byte)).
    repeat split; lia.
  - (* gain *)
    rewrite ltc5599_read_gain_fetch in Hw |- *.
    fetch_success_case d Hwf Hw LTC5599_GAIN_REG 0
      (fun x => Z.land x LTC5599_GAIN_MASK).
    pose proof (land_low5_range byte) as Hr.
    change 0x1F with LTC5599_GAIN_MASK in Hr.
    rewrite (s32_small (Z.land byte LTC5599_GAIN_MASK)) by lia.
    rewrite s32_small by lia. repeat split; lia.
  - (* gain ratio *)
    rewrite ltc5599_read_iqgainratio_fetch in Hw |- *.
    fetch_success_case d Hwf Hw LTC5599_IQ_GAINRAT_REG val
      (fun x => s32 (x - 128)).
    rewrite s32_small by lia. repeat split; lia.
  - (* phase balance *)
    destruct (ltc5599_read_iqphasebalance_cases val d)
      as [(s & b1 & Hs & E) | [(s & b1 & b2 & byte0 & Hs & Hb & E)
         | (b1 & b2 & byte0 & byte1 & Hb0 & Hb1 & E)]];
      rewrite E in Hw |- *; cbn [fst snd] in Hw |- *.
    + rewrite (proj2 (failed_true s) Hs) in Hw. cbn [ret fst snd] in Hw.
      rewrite wire_sent in Hw. apply app_inv_head, all_ok_one in Hw. contradiction.
    + rewrite (proj2 (failed_true s) Hs) in Hw. cbn [ret fst snd] in Hw.
      rewrite wire_sent, wire_cached, wire_sent, <- app_assoc in Hw.
      apply app_inv_head in Hw. cbn in Hw. apply all_ok_two in Hw. contradiction.
    + change (failed 0) with false. cbn [ret fst snd].
      split; [reflexivity|]. split; [|reflexivity].
      apply phase_value_range; [exact Hb1|].
      destruct (negb _); [left | right]; reflexivity.
  - (* any other attribute *)
    apply Hnil. reflexivity.
Qed.

Lemma read_value_ranges_witness :
  shadow_wf (priv (probed [])) /\ [[1; 255]; [11; 255]] <> [] /\
  (let r := ltc5599_read_raw (LTC5599_CHANNEL 0) 7 9 IIO_CHAN_INFO_PHASE (probed []) in
   r.1.1 = IIO_VAL_INT /\ -240 <= r.1.2.1 <= 239 /\ r.1.2.2 = 9).
Proof.
  assert (Hwf : shadow_wf (priv (probed []))) by reflexivity.
  assert (Hne : [[1; 255]; [11; 255]] <> []) by discriminate.
  split; [exact Hwf|]. split; [exact Hne|].
  exact (read_value_ranges (probed []) (LTC5599_CHANNEL 0) 7 9 IIO_CHAN_INFO_PHASE
           [[1; 255]; [11; 255]] Hwf Hne eq_refl).
Defined.

(** ** Gain and frequency against the register-file device *)

Lemma chip_fetch (d : iio_dev chip) (reg val : Z) (decode : Z -> Z) :
  healthy (spi d) -> shadow_wf (priv d) -> 0 <= reg < 32 ->
  exists c',
    fetch reg val decode d =
      ((0, decode (u8 (regs (spi d) reg))),
       cached reg (u8 (regs (spi d) reg)) (sent [2 * reg + 1; 0xFF] 0 c' d))
    /\ healthy c'
    /\ regs c' = regs (spi d).
Proof.
  intros Hh Hwf Hr.
  destruct (chip_read d reg 0 Hh ltac:(lia)) as (c' & E & Hh' & Hg).
  exists c'. split; [|split; assumption].
  unfold fetch, bind. rewrite E.
  cbn [fst snd failed Z.eqb negb modify_priv get_priv ret priv].
  rewrite (shadow_get_set_eq (priv (sent [2 * reg + 1; 0xFF] 0 c' d)))
    by (first [exact Hwf | exact Hr]).
  rewrite u8_idem. reflexivity.
Qed.

Lemma gain_byte_stored (st : ltc5599) (tmp : Z) :
  0 <= tmp <= 19 -> Z.land (gain_byte st tmp) LTC5599_GAIN_MASK = tmp.
Proof.
  intros Ht. change LTC5599_GAIN_MASK with 0x1F. rewrite gain_byte_low5.
  change 0x1F with (Z.ones 5). rewrite Z.land_ones by lia.
  apply Z.mod_small. lia.
Qed.

(** X1. With a device that stores what it is sent and transfers that all
    succeed, a gain write of [v <= 0] (an [int]) stores the magnitude
    [min (-v) 19] in the low five bits of the gain register, keeps the
    cached bits 5-7, and the gain read that follows returns
    [IIO_VAL_INT_PLUS_MICRO_DB] with the value [max v (-19)] and 0 in the
    second cell: gains down to -19 read back as written, lower ones as -19. *)
Theorem gain_roundtrip (d : iio_dev chip) (chan : iio_chan_spec)
    (v val2 out out2 : Z) :
  - 2 ^ 31 <= v <= 0 ->
  healthy (spi d) ->
  shadow_wf (priv d) ->
  let w := ltc5599_write_raw chan v val2 IIO_CHAN_INFO_HARDWAREGAIN d in
  let r := ltc5599_read_raw chan out out2 IIO_CHAN_INFO_HARDWAREGAIN w.2 in
  let gain_reg := regs (spi w.2) LTC5599_GAIN_REG in
  w.1 = 0
  /\ Z.land gain_reg 0x1F = Z.min (- v) 19
  /\ Z.land gain_reg 0xE0 = Z.land (shadow_get (priv d) LTC5599_GAIN_REG) 0xE0
  /\ r.1 = (IIO_VAL_INT_PLUS_MICRO_DB, (Z.max v (-19), 0)).
Proof.
  intros Hv Hh Hwf w r gain_reg.
  set (tmp := Z.min (- v) 19).
  assert (Ht : 0 <= tmp <= 19) by (subst tmp; lia).
  assert (Hreg : 0 <= LTC5599_GAIN_REG < 128) by (cbv; split; congruence).
  assert (Hreg32 : 0 <= LTC5599_GAIN_REG < 32) by (cbv; split; congruence).
  set (gb := gain_byte (priv d) tmp).
  assert (Ew : w = commit LTC5599_GAIN_REG gb d).
  { subst w. unfold ltc5599_write_raw.
    destruct (Z.gtb_spec v 0); [lia|].
    rewrite (u32_small (- v)) by lia.
    replace (if - v >? 19 then 19 else - v) with tmp
      by (subst tmp; destruct (Z.gtb_spec (- v) 19); lia).
    apply ltc5599_write_gain_commit. }
  destruct (chip_commit d _ _ Hh Hreg (gain_byte_u8 (priv d) tmp))
    as (c1 & E1 & Hh1 & Hg1).
  fold gb in E1, Hg1. rewrite E1 in Ew.
  assert (Hg : gain_reg = gb).
  { subst gain_reg. rewrite Ew. cbn [snd spi cached sent]. rewrite Hg1.
    cbn beta. now rewrite Z.eqb_refl. }
  split; [now rewrite Ew|]. rewrite Hg.
  split; [apply (gain_byte_stored (priv d) tmp Ht)|].
  split; [apply gain_byte_bits567|].
  subst r. rewrite Ew. cbn [snd]. set (d1 := cached _ _ _).
  assert (Hwf1 : shadow_wf (priv d1)) by (apply shadow_set_wf; exact Hwf).
  destruct (chip_fetch d1 LTC5599_GAIN_REG 0 (fun x => Z.land x LTC5599_GAIN_MASK)
              Hh1 Hwf1 Hreg32) as (c2 & E2 & _ & _).
  unfold ltc5599_read_raw, bind. rewrite ltc5599_read_gain_fetch, E2.
  cbn [fst snd failed Z.eqb negb ret].
  replace (regs (spi d1) LTC5599_GAIN_REG) with gb
    by (subst d1; cbn [spi cached sent]; rewrite Hg1; cbn beta;
        now rewrite Z.eqb_refl).
  unfold gb at 1. rewrite gain_byte_u8. fold gb.
  unfold gb. rewrite (gain_byte_stored (priv d) tmp Ht).
  rewrite (s32_small tmp) by lia. rewrite s32_small by lia.
  do 2 f_equal. subst tmp. lia.
Qed.

Lemma gain_roundtrip_witness :
  (- 2 ^ 31 <= -25 <= 0) /\ healthy (spi (probed [])) /\
  shadow_wf (priv (probed [])) /\
  (ltc5599_read_raw (LTC5599_CHANNEL 0) 0 7 IIO_CHAN_INFO_HARDWAREGAIN
     (ltc5599_write_raw (LTC5599_CHANNEL 0) (-25) 0 IIO_CHAN_INFO_HARDWAREGAIN
        (probed [])).2).1
  = (IIO_VAL_INT_PLUS_MICRO_DB, (-19, 0)).
Proof.
  assert (Hv : - 2 ^ 31 <= -25 <= 0) by (split; discriminate).
  assert (Hh : healthy (spi (probed []))) by constructor.
  assert (Hwf : shadow_wf (priv (probed []))) by reflexivity.
  split; [exact Hv|]. split; [exact Hh|]. split; [exact Hwf|].
  exact (proj2 (proj2 (proj2
    (gain_roundtrip (probed []) (LTC5599_CHANNEL 0) (-25) 0 0 7 Hv Hh Hwf)))).
Defined.

Lemma khz_of_hz (hz : Z) :
  30000000 <= hz <= 1300000000 ->
  u32 (Z.quot hz 1000) = hz / 1000 /\ 30000 <= hz / 1000 <= 1300000.
Proof.
  intros Hz. rewrite Z.quot_div_nonneg by lia.
  assert (30000 <= hz / 1000) by (apply Z.div_le_lower_bound; lia).
  assert (hz / 1000 <= 1300000) by (apply Z.div_le_upper_bound; lia).
  split; [apply u32_small; lia | lia].
Qed.

Lemma freq_byte_stored (st : ltc5599) (w : Z) :
  0 <= w < 128 -> Z.land (freq_byte st w) LTC5599_FREQ_MASK = w.
Proof.
  intros Hw. change LTC5599_FREQ_MASK with 0x7F. rewrite freq_byte_low7.
  change 0x7F with (Z.ones 7). rewrite Z.land_ones by lia.
  apply Z.mod_small. lia.
Qed.

(** Writing a frequency and reading it back, on the register-file device. *)
Lemma frequency_write_then_read (d : iio_dev chip) (chan : iio_chan_spec)
    (hz val2 out out2 : Z) :
  30000000 <= hz <= 1300000000 ->
  healthy (spi d) ->
  shadow_wf (priv d) ->
  let word := freq_to_ctrl_word (hz / 1000) in
  let w := ltc5599_write_raw chan hz val2 IIO_CHAN_INFO_FREQUENCY d in
  let r := ltc5599_read_raw chan out out2 IIO_CHAN_INFO_FREQUENCY w.2 in
  w.1 = 0
  /\ regs (spi w.2) LTC5599_FREQ_REG = freq_byte (priv d) word
  /\ r.1 = (IIO_VAL_INT, (freq_poly word, out2)).
Proof.
  intros Hz Hh Hwf word w r.
  destruct (khz_of_hz hz Hz) as [Hq Hk].
  destruct (freq_to_ctrl_word_order (hz / 1000) (hz / 1000) ltac:(lia))
    as (Hw1 & _ & Hw2). fold word in Hw1, Hw2.
  assert (Hreg : 0 <= LTC5599_FREQ_REG < 128) by (cbv; split; congruence).
  assert (Hreg32 : 0 <= LTC5599_FREQ_REG < 32) by (cbv; split; congruence).
  set (fb := freq_byte (priv d) word).
  assert (Ew : w = commit LTC5599_FREQ_REG fb d).
  { subst w. unfold ltc5599_write_raw.
    destruct (Z.ltb_spec hz 30000000), (Z.gtb_spec hz 1300000000); try lia.
    cbn [orb]. rewrite Hq. apply ltc5599_write_freq_commit. }
  destruct (chip_commit d _ _ Hh Hreg (freq_byte_u8 (priv d) word))
    as (c1 & E1 & Hh1 & Hg1).
  fold fb in E1, Hg1. rewrite E1 in Ew. subst r. rewrite Ew. cbn [fst snd].
  set (d1 := cached _ _ _).
  assert (Hf : regs (spi d1) LTC5599_FREQ_REG = fb).
  { subst d1. cbn [spi cached sent]. rewrite Hg1. cbn beta.
    now rewrite Z.eqb_refl. }
  split; [reflexivity|]. split; [exact Hf|].
  assert (Hwf1 : shadow_wf (priv d1)) by (apply shadow_set_wf; exact Hwf).
  destruct (chip_fetch d1 LTC5599_FREQ_REG 0 (fun x => Z.land x LTC5599_FREQ_MASK)
              Hh1 Hwf1 Hreg32) as (c2 & E2 & _ & _).
  unfold ltc5599_read_raw, bind. rewrite ltc5599_read_freq_fetch, E2.
  cbn [fst snd failed Z.eqb negb ret]. rewrite Hf.
  unfold fb at 1. rewrite freq_byte_u8. fold fb.
  unfold fb. rewrite (freq_byte_stored (priv d) word) by lia. reflexivity.
Qed.

Lemma freq_poly_step (w : Z) :
  0 <= w < 127 -> freq_poly (w + 1) < freq_poly w.
Proof.
  intros Hw.
  pose proof (forall_range (fun a => freq_poly (a + 1) <? freq_poly a)
                0 127 ltac:(vm_compute; reflexivity) w ltac:(lia)) as Hc.
  now apply Z.ltb_lt in Hc.
Qed.

Lemma freq_poly_antitone (w1 w2 : Z) :
  0 <= w1 <= w2 -> w2 < 128 -> freq_poly w2 <= freq_poly w1.
Proof.
  intros H1 H2.
  remember (Z.to_nat (w2 - w1)) as n eqn:En.
  revert w2 H1 H2 En. induction n as [|n IH]; intros w2 H1 H2 En.
  - replace w2 with w1 by lia. lia.
  - specialize (IH (w2 - 1) ltac:(lia) ltac:(lia) ltac:(lia)).
    pose proof (freq_poly_step (w2 - 1) ltac:(lia)) as Hs.
    replace (w2 - 1 + 1) with w2 in Hs by lia. lia.
Qed.

(** X6. With a device that stores what it is sent and transfers that all
    succeed, writing a frequency of [hz] in 30 MHz .. 1.3 GHz puts the
    tuning word of [hz / 1000] kHz, a number in 1 .. 121, into the low seven
    bits of the frequency register, keeps the cached bit 7, and the
    frequency read that follows returns the cubic at that word: what is
    read back is the frequency of the selected word, not [hz] itself. *)
Theorem frequency_write_read (d : iio_dev chip) (chan : iio_chan_spec)
    (hz val2 out out2 : Z) :
  30000000 <= hz <= 1300000000 ->
  healthy (spi d) ->
  shadow_wf (priv d) ->
  let word := freq_to_ctrl_word (hz / 1000) in
  let w := ltc5599_write_raw chan hz val2 IIO_CHAN_INFO_FREQUENCY d in
  let r := ltc5599_read_raw chan out out2 IIO_CHAN_INFO_FREQUENCY w.2 in
  let freq_reg := regs (spi w.2) LTC5599_FREQ_REG in
  w.1 = 0
  /\ 1 <= word <= 121
  /\ Z.land freq_reg 0x7F = word
  /\ Z.land freq_reg 0x80 = Z.land (shadow_get (priv d) LTC5599_FREQ_REG) 0x80
  /\ r.1 = (IIO_VAL_INT,
            (-553 * word ^ 3 + 198810 * word ^ 2 - 26120002 * word + 1319492809,
             out2)).
Proof.
  intros Hz Hh Hwf word w r freq_reg.
  destruct (frequency_write_then_read d chan hz val2 out out2 Hz Hh Hwf)
    as (Hw & Hreg & Hr).
  destruct (freq_to_ctrl_word_order (hz / 1000) (hz / 1000) ltac:(lia))
    as (Hw1 & _ & Hw2). fold word in Hw1, Hw2, Hreg, Hr.
  split; [exact Hw|]. split; [lia|]. subst freq_reg w. rewrite Hreg.
  split; [apply (freq_byte_stored (priv d) word); lia|].
  split; [apply freq_byte_bit7|].
  subst r. rewrite Hr. now rewrite freq_poly_cubic by lia.
Qed.

Lemma frequency_write_read_witness :
  (30000000 <= 433920000 <= 1300000000) /\ healthy (spi (probed [])) /\
  shadow_wf (priv (probed [])) /\
  (ltc5599_read_raw (LTC5599_CHANNEL 0) 0 0 IIO_CHAN_INFO_FREQUENCY
     (ltc5599_write_raw (LTC5599_CHANNEL 0) 433920000 0 IIO_CHAN_INFO_FREQUENCY
        (probed [])).2).1
  = (IIO_VAL_INT,
     (let word := freq_to_ctrl_word (433920000 / 1000) in
      -553 * word ^ 3 + 198810 * word ^ 2 - 26120002 * word + 1319492809, 0)).
Proof.
  assert (Hz : 30000000 <= 433920000 <= 1300000000) by (split; discriminate).
  assert (Hh : healthy (spi (probed []))) by constructor.
  assert (Hwf : shadow_wf (priv (probed []))) by reflexivity.
  split; [exact Hz|]. split; [exact Hh|]. split; [exact Hwf|].
  exact (proj2 (proj2 (proj2 (proj2
    (frequency_write_read (probed []) (LTC5599_CHANNEL 0) 433920000 0 0 0
       Hz Hh Hwf))))).
Defined.

(** X7. The frequency read back never runs against the frequency written:
    for [hz1 <= hz2], both in 30 MHz .. 1.3 GHz, written to devices that
    store what they are sent and then read back with succeeding transfers,
    the first read returns a value no greater than the second. *)
Theorem frequency_readback_monotone (d1 d2 : iio_dev chip)
    (chan1 chan2 : iio_chan_spec) (hz1 hz2 val2 out out2 : Z) :
  30000000 <= hz1 -> hz1 <= hz2 -> hz2 <= 1300000000 ->
  healthy (spi d1) -> shadow_wf (priv d1) ->
  healthy (spi d2) -> shadow_wf (priv d2) ->
  let readback d chan hz :=
    (ltc5599_read_raw chan out out2 IIO_CHAN_INFO_FREQUENCY
       (ltc5599_write_raw chan hz val2 IIO_CHAN_INFO_FREQUENCY d).2).1 in
  (readback d1 chan1 hz1).1 = IIO_VAL_INT
  /\ (readback d2 chan2 hz2).1 = IIO_VAL_INT
  /\ (readback d1 chan1 hz1).2.1 <= (readback d2 chan2 hz2).2.1.
Proof.
  intros H1 H12 H2 Hh1 Hwf1 Hh2 Hwf2 readback. subst readback. cbv beta.
  destruct (frequency_write_then_read d1 chan1 hz1 val2 out out2
              ltac:(lia) Hh1 Hwf1) as (_ & _ & ->).
  destruct (frequency_write_then_read d2 chan2 hz2 val2 out out2
              ltac:(lia) Hh2 Hwf2) as (_ & _ & ->).
  cbn [fst snd]. split; [reflexivity|]. split; [reflexivity|].
  assert (Hk : hz1 / 1000 <= hz2 / 1000) by (apply Z.div_le_mono; lia).
  destruct (freq_to_ctrl_word_order _ _ Hk) as (Ha & Hb & Hc).
  apply freq_poly_antitone; lia.
Qed.

Lemma frequency_readback_monotone_witness :
  30000000 <= 100000000 /\ 100000000 <= 900000000 /\ 900000000 <= 1300000000 /\
  healthy (spi (probed [])) /\ shadow_wf (priv (probed [])) /\
  (ltc5599_read_raw (LTC5599_CHANNEL 0) 0 0 IIO_CHAN_INFO_FREQUENCY
     (ltc5599_write_raw (LTC5599_CHANNEL 0) 100000000 0 IIO_CHAN_INFO_FREQUENCY
        (probed [])).2).1.2.1
  <= (ltc5599_read_raw (LTC5599_CHANNEL 1) 0 0 IIO_CHAN_INFO_FREQUENCY
     (ltc5599_write_raw (LTC5599_CHANNEL 1) 900000000 0 IIO_CHAN_INFO_FREQUENCY
        (probed [])).2).1.2.1.
Proof.
  assert (H1 : 30000000 <= 100000000) by discriminate.
  assert (H12 : 100000000 <= 900000000) by discriminate.
  assert (H2 : 900000000 <= 1300000000) by discriminate.
  assert (Hh : healthy (spi (probed []))) by constructor.
  assert (Hwf : shadow_wf (priv (probed []))) by reflexivity.
  repeat (split; [assumption|]).
  exact (proj2 (proj2
    (frequency_readback_monotone (probed []) (probed [])
       (LTC5599_CHANNEL 0) (LTC5599_CHANNEL 1) 100000000 900000000 0 0 0
       H1 H12 H2 Hh Hwf Hh Hwf))).
Defined.

(** ** The shadow cache mirrors the device *)

Lemma chip_step (c : chip) (tx : list Z) :
  (exists s c', s <> 0 /\ spi_sync c tx = (s, [], c') /\ regs c' = regs c)
  \/ (exists c0, regs c0 = regs c /\ spi_sync c tx = chip_exec c0 tx).
Proof.
  unfold spi_sync, chip_bus, chip_sync. destruct c as [rg [|s rest]]; cbn [faults regs].
  - right. exists {| regs := rg; faults := [] |}. split; reflexivity.
  - destruct (Z.eqb_spec s 0) as [->|Hs].
    + right. exists {| regs := rg; faults := rest |}. split; reflexivity.
    + left. exists s, {| regs := rg; faults := rest |}. repeat split. exact Hs.
Qed.

Lemma coherent_sent (d : iio_dev chip) (buf : list Z) (s : Z) (c' : chip) :
  coherent d -> regs c' = regs (spi d) -> coherent (sent buf s c' d).
Proof.
  intros [Hwf Hc] Hg. split; [exact Hwf|]. intros i Hi.
  cbn [spi sent]. rewrite Hg. exact (Hc i Hi).
Qed.

Lemma coherent_update (d : iio_dev chip) (reg v : Z) (buf : list Z) (s : Z)
    (c' : chip) :
  coherent d -> 0 <= reg < 32 ->
  (forall a, regs c' a = if a =? reg then u8 v else regs (spi d) a) ->
  coherent (cached reg v (sent buf s c' d)).
Proof.
  intros [Hwf Hc] Hr Hg. split.
  - apply (shadow_set_wf (priv (sent buf s c' d))). exact Hwf.
  - intros i Hi. cbn [priv spi cached]. rewrite Hg.
    destruct (Z.eqb_spec i reg) as [->|Hne].
    + rewrite (shadow_get_set_eq (priv (sent buf s c' d))) by assumption.
      split; [apply u8_range | reflexivity].
    + rewrite (shadow_get_set_ne (priv (sent buf s c' d))) by lia.
      exact (Hc i Hi).
Qed.

Lemma commit_coherent (d : iio_dev chip) (reg tmp : Z) :
  0 <= reg < 32 -> coherent d -> coherent (commit reg tmp d).2.
Proof.
  intros Hr Hc.
  assert (Hf : write_frame reg tmp = [2 * reg; u8 tmp]).
  { rewrite write_frame_any. rewrite (Z.mod_small reg) by lia. reflexivity. }
  destruct (chip_step (spi d) (write_frame reg tmp))
    as [(s & c' & Hs & E & Hg) | (c0 & Hg & E)].
  - rewrite (commit_eq (H := chip_bus) _ _ _ _ _ _ E).
    rewrite (proj2 (failed_true s) Hs). cbn [snd]. now apply coherent_sent.
  - rewrite Hf, chip_exec_write in E. rewrite <- Hf in E.
    rewrite (commit_eq (H := chip_bus) _ _ _ _ _ _ E).
    change (failed 0) with false. cbn [snd]. apply coherent_update; try assumption.
    intros a. cbn [regs]. now rewrite Hg.
Qed.

(** One read on the device: it fails and leaves the registers alone, or it
    answers with the addressed register. *)
Lemma chip_read_any (d : iio_dev chip) (reg val : Z) :
  0 <= reg < 128 ->
  (exists s v c', s <> 0 /\ regs c' = regs (spi d) /\
     ltc5599_read reg val d = ((s, v), sent (read_frame reg) s c' d))
  \/ (exists c', regs c' = regs (spi d) /\
     ltc5599_read reg val d =
       ((0, u8 (regs (spi d) reg)), sent (read_frame reg) 0 c' d)).
Proof.
  intros Hr.
  destruct (chip_step (spi d) (read_frame reg))
    as [(s & c' & Hs & E & Hg) | (c0 & Hg & E)].
  - left. exists s. eexists. exists c'. split; [exact Hs|]. split; [exact Hg|].
    apply (ltc5599_read_eq (H := chip_bus) _ _ _ _ _ _ E).
  - right. rewrite (read_frame_bytes reg Hr), chip_exec_read in E.
    rewrite <- (read_frame_bytes reg Hr) in E.
    exists c0. split; [exact Hg|].
    rewrite (ltc5599_read_eq (H := chip_bus) _ _ _ _ _ _ E).
    cbn [Z.ltb Z.compare nth]. now rewrite Hg.
Qed.

Lemma coherent_refresh (d : iio_dev chip) (reg : Z) (buf : list Z) (c' : chip) :
  coherent d -> 0 <= reg < 32 -> regs c' = regs (spi d) ->
  coherent (cached reg (u8 (regs (spi d) reg)) (sent buf 0 c' d)).
Proof.
  intros Hc Hr Hg. apply coherent_update; try assumption.
  intros a. rewrite Hg. destruct (Z.eqb_spec a reg) as [->|]; [|reflexivity].
  destruct Hc as [_ Hc]. destruct (Hc reg Hr) as [Hb <-].
  rewrite !u8_small; [reflexivity | exact Hb | rewrite u8_small; exact Hb].
Qed.

Lemma fetch_coherent (d : iio_dev chip) (reg val : Z) (decode : Z -> Z) :
  0 <= reg < 32 -> coherent d -> coherent (fetch reg val decode d).2.
Proof.
  intros Hr Hc. unfold fetch, bind.
  destruct (chip_read_any d reg 0 ltac:(lia))
    as [(s & v & c' & Hs & Hg & ->) | (c' & Hg & ->)]; cbn [fst snd].
  - rewrite (proj2 (failed_true s) Hs). cbn [ret snd]. now apply coherent_sent.
  - change (failed 0) with false. cbn [modify_priv get_priv ret snd].
    now apply (coherent_refresh d reg (read_frame reg) c').
Qed.

Lemma write_raw_coherent (d : iio_dev chip) (chan : iio_chan_spec)
    (val val2 : Z) (info : iio_chan_info_enum) :
  coherent d -> coherent (ltc5599_write_raw chan val val2 info d).2.
Proof.
  intros Hc. destruct info; unfold ltc5599_write_raw.
  - destruct ((val <? -127) || (val >? 127)); [exact Hc|].
    destruct (Z.le_gt_cases (u32 (address chan)) 1) as [Hle|Hgt].
    + assert (0 <= u32 (address chan)) by (apply Z.mod_pos_bound; lia).
      rewrite ltc5599_write_offset_commit by exact Hle.
      apply commit_coherent; [unfold LTC5599_OFFSI_REG; lia | exact Hc].
    + unfold ltc5599_write_offset.
      destruct (Z.gtb_spec (u32 (address chan)) 1); [exact Hc | lia].
  - destruct ((val <? 30000000) || (val >? 1300000000)); [exact Hc|].
    rewrite ltc5599_write_freq_commit.
    apply commit_coherent; [unfold LTC5599_FREQ_REG; lia | exact Hc].
  - destruct (val >? 0); [exact Hc|].
    rewrite ltc5599_write_gain_commit.
    apply commit_coherent; [unfold LTC5599_GAIN_REG; lia | exact Hc].
  - destruct ((val <? -127) || (val >? 127)); [exact Hc|].
    rewrite ltc5599_write_iqgainratio_commit.
    apply commit_coherent; [unfold LTC5599_IQ_GAINRAT_REG; lia | exact Hc].
  - destruct ((val <? -240) || (val >? 239)); [exact Hc|].
    rewrite ltc5599_write_iqphasebalance_commit. unfold bind.
    pose proof (commit_coherent d LTC5599_IQ_PHASEBAL_REG (phase_byte val)
                  ltac:(unfold LTC5599_IQ_PHASEBAL_REG; lia) Hc) as H1.
    destruct (commit LTC5599_IQ_PHASEBAL_REG (phase_byte val) d) as [r d1].
    cbn [snd] in H1. destruct (failed r); [exact H1|].
    apply commit_coherent; [unfold LTC5599_FREQ_REG; lia | exact H1].
  - exact Hc.
Qed.

Lemma read_phase_coherent (d : iio_dev chip) (val : Z) :
  coherent d -> coherent (ltc5599_read_iqphasebalance val d).2.
Proof.
  intros Hc. unfold ltc5599_read_iqphasebalance, bind.
  destruct (chip_read_any d LTC5599_FREQ_REG 0 ltac:(unfold LTC5599_FREQ_REG; lia))
    as [(s & v & c1 & Hs & Hg & ->) | (c1 & Hg & ->)]; cbn [fst snd].
  - rewrite (proj2 (failed_true s) Hs). cbn [ret snd]. now apply coherent_sent.
  - change (failed 0) with false. cbn [modify_priv].
    set (byte0 := u8 (regs (spi d) LTC5599_FREQ_REG)).
    set (d1 := {| priv := _; spi := _; wire := _ |}).
    assert (H1 : coherent d1).
    { apply (coherent_refresh d LTC5599_FREQ_REG (read_frame LTC5599_FREQ_REG) c1);
        [exact Hc | unfold LTC5599_FREQ_REG; lia | exact Hg]. }
    destruct (chip_read_any d1 LTC5599_IQ_PHASEBAL_REG byte0
                ltac:(unfold LTC5599_IQ_PHASEBAL_REG; lia))
      as [(s & v & c2 & Hs & Hg2 & ->) | (c2 & Hg2 & ->)]; cbn [fst snd].
    + rewrite (proj2 (failed_true s) Hs). cbn [ret snd]. now apply coherent_sent.
    + change (failed 0) with false. cbn [modify_priv ret snd].
      apply (coherent_refresh d1 LTC5599_IQ_PHASEBAL_REG
               (read_frame LTC5599_IQ_PHASEBAL_REG) c2);
        [exact H1 | unfold LTC5599_IQ_PHASEBAL_REG; lia | exact Hg2].
Qed.

Lemma read_raw_coherent (d : iio_dev chip) (chan : iio_chan_spec)
    (val val2 : Z) (info : iio_chan_info_enum) :
  coherent d -> coherent (ltc5599_read_raw chan val val2 info d).2.
Proof.
  intros Hc.
  assert (Hwrap : forall (m : M chip (Z * Z)) (k1 k2 : Z * Z -> Z * (Z * Z)),
            coherent (m d).2 ->
            coherent (let '(a, d') := m d in
                      (if failed a.1 then ret (k1 a) else ret (k2 a)) d').2).
  { intros m k1 k2 Hm. destruct (m d) as [a d']. cbn [snd] in Hm.
    destruct (failed a.1); exact Hm. }
  destruct info; unfold ltc5599_read_raw, bind.
  - apply (Hwrap (ltc5599_read_offset (u32 (address chan)) val)
             (fun r => (r.1, (r.2, val2))) (fun r => (IIO_VAL_INT, (r.2, val2)))).
    destruct (Z.le_gt_cases (u32 (address chan)) 1) as [Hle|Hgt].
    + assert (0 <= u32 (address chan)) by (apply Z.mod_pos_bound; lia).
      rewrite ltc5599_read_offset_fetch by exact Hle.
      apply fetch_coherent; [unfold LTC5599_OFFSI_REG; lia | exact Hc].
    + unfold ltc5599_read_offset.
      destruct (Z.gtb_spec (u32 (address chan)) 1); [exact Hc | lia].
  - apply (Hwrap (ltc5599_read_freq 0)
             (fun r => (r.1, (val, val2)))
             (fun r => (IIO_VAL_INT, (freq_poly r.2, val2)))).
    rewrite ltc5599_read_freq_fetch.
    apply fetch_coherent; [unfold LTC5599_FREQ_REG; lia | exact Hc].
  - apply (Hwrap (ltc5599_read_gain 0)
             (fun r => (r.1, (val, val2)))
             (fun r => (IIO_VAL_INT_PLUS_MICRO_DB, (s32 (-1 * s32 r.2), 0)))).
    rewrite ltc5599_read_gain_fetch.
    apply fetch_coherent; [unfold LTC5599_GAIN_REG; lia | exact Hc].
  - apply (Hwrap (ltc5599_read_iqgainratio val)
             (fun r => (r.1, (r.2, val2))) (fun r => (IIO_VAL_INT, (r.2, val2)))).
    rewrite ltc5599_read_iqgainratio_fetch.
    apply fetch_coherent; [unfold LTC5599_IQ_GAINRAT_REG; lia | exact Hc].
  - apply (Hwrap (ltc5599_read_iqphasebalance val)
             (fun r => (r.1, (r.2, val2))) (fun r => (IIO_VAL_INT, (r.2, val2)))).
    now apply read_phase_coherent.
  - exact Hc.
Qed.

Lemma coherent_probed (script : list Z) : coherent (probed script).
Proof.
  split; [reflexivity|]. intros i Hi.
  pose proof (forall_range
    (fun i => (0 <=? shadow_get (priv (probed [])) i)
              && (shadow_get (priv (probed [])) i <? 256)
              && (shadow_get (priv (probed [])) i =? regs (spi (probed [])) i))
    0 32 ltac:(vm_compute; reflexivity) i Hi) as Hp.
  cbv beta in Hp. apply andb_prop in Hp as [Hp H3]. apply andb_prop in Hp as [H1 H2].
  apply Z.leb_le in H1. apply Z.ltb_lt in H2. apply Z.eqb_eq in H3.
  change (shadow_get (priv (probed script)) i)
    with (shadow_get (priv (probed [])) i).
  change (regs (spi (probed script)) i) with (regs (spi (probed [])) i).
  lia.
Qed.

(** X3. Against a device whose failed transfers leave its registers alone,
    the shadow cache keeps mirroring the device: if the 32 cached bytes
    equal the device registers of the same addresses, they still do after
    any run of attribute reads and writes, with any arguments and whatever
    transfers fail along the way, the half-done phase-balance write
    included. *)
Theorem cache_mirrors_device (d : iio_dev chip) (ops : list access) :
  coherent d -> coherent (session ops d).
Proof.
  unfold session. revert d. induction ops as [|a ops IH]; intros d Hc.
  - exact Hc.
  - cbn [fold_left]. apply IH. destruct a as [chan val val2 info | chan val val2 info].
    + now apply write_raw_coherent.
    + now apply read_raw_coherent.
Qed.

Lemma cache_mirrors_device_witness :
  coherent (probed [0; -5; 0; 0; -5]) /\
  coherent (session
              [Write (LTC5599_CHANNEL 0) (-100) 0 IIO_CHAN_INFO_PHASE;
               Write (LTC5599_CHANNEL 1) 900000000 0 IIO_CHAN_INFO_FREQUENCY;
               Read (LTC5599_CHANNEL 0) 0 0 IIO_CHAN_INFO_PHASE;
               Write (LTC5599_CHANNEL 1) 55 0 IIO_CHAN_INFO_OFFSET]
              (probed [0; -5; 0; 0; -5])).
Proof.
  assert (Hc : coherent (probed [0; -5; 0; 0; -5])) by apply coherent_probed.
  split; [exact Hc|].
  exact (cache_mirrors_device (probed [0; -5; 0; 0; -5]) _ Hc).
Defined.

(** ** What an access leaves alone *)

Section Footprint.

Context {B : Type} `{SpiBus B}.







End Footprint.


(** ** Channels *)

Lemma write_raw_offset_commit {B : Type} `{SpiBus B} (d : iio_dev B)
    (c v val2 : Z) :
  -127 <= v <= 127 -> c = 0 \/ c = 1 ->
  ltc5599_write_raw (LTC5599_CHANNEL c) v val2 IIO_CHAN_INFO_OFFSET d
  = commit (LTC5599_OFFSI_REG + c) (v + 128) d.
Proof.
  intros Hv Hc. unfold ltc5599_write_raw. cbn [address LTC5599_CHANNEL].
  rewrite (u32_small c) by lia.
  destruct (Z.ltb_spec v (-127)), (Z.gtb_spec v 127); try lia. cbn [orb].
  rewrite ltc5599_write_offset_commit by lia. now rewrite offset_byte_spec.
Qed.

Lemma chip_read_offset (d : iio_dev chip) (c out out2 : Z) :
  c = 0 \/ c = 1 -> healthy (spi d) -> shadow_wf (priv d) ->
  (ltc5599_read_raw (LTC5599_CHANNEL c) out out2 IIO_CHAN_INFO_OFFSET d).1
  = (IIO_VAL_INT, (s32 (u8 (regs (spi d) (LTC5599_OFFSI_REG + c)) - 128), out2)).
Proof.
  intros Hc Hh Hwf. unfold ltc5599_read_raw, bind. cbn [address LTC5599_CHANNEL].
  rewrite (u32_small c) by lia. rewrite ltc5599_read_offset_fetch by lia.
  destruct (chip_fetch d (LTC5599_OFFSI_REG + c) out (fun x => s32 (x - 128))
              Hh Hwf ltac:(unfold LTC5599_OFFSI_REG; lia)) as (c' & -> & _ & _).
  reflexivity.
Qed.

(** X8. The offset is the one attribute stored per channel.  On a device
    that stores what it is sent, with transfers that all succeed, writing
    offset [v0] through channel 0 and then [v1] through channel 1 (both in
    -127 .. 127) leaves both in place: channel 0 reads back [v0], channel 1
    reads back [v1].  Every other attribute ignores the channel: its write
    and its read do the same whichever channel they are given. *)
Theorem offsets_are_per_channel (d : iio_dev chip) (v0 v1 val2 out out2 : Z) :
  -127 <= v0 <= 127 ->
  -127 <= v1 <= 127 ->
  healthy (spi d) ->
  shadow_wf (priv d) ->
  let ch0 := LTC5599_CHANNEL 0 in
  let ch1 := LTC5599_CHANNEL 1 in
  let d1 := (ltc5599_write_raw ch0 v0 val2 IIO_CHAN_INFO_OFFSET d).2 in
  let d2 := (ltc5599_write_raw ch1 v1 val2 IIO_CHAN_INFO_OFFSET d1).2 in
  (ltc5599_read_raw ch0 out out2 IIO_CHAN_INFO_OFFSET d2).1
  = (IIO_VAL_INT, (v0, out2))
  /\ (ltc5599_read_raw ch1 out out2 IIO_CHAN_INFO_OFFSET d2).1
     = (IIO_VAL_INT, (v1, out2))
  /\ (forall (d' : iio_dev chip) chan chan' val info,
        info <> IIO_CHAN_INFO_OFFSET ->
        ltc5599_write_raw chan val val2 info d'
        = ltc5599_write_raw chan' val val2 info d'
        /\ ltc5599_read_raw chan out out2 info d'
           = ltc5599_read_raw chan' out out2 info d').
Proof.
  intros Hv0 Hv1 Hh Hwf ch0 ch1 d1 d2.
  assert (Hr2 : 0 <= LTC5599_OFFSI_REG + 0 < 128) by (cbv; split; congruence).
  assert (Hr3 : 0 <= LTC5599_OFFSI_REG + 1 < 128) by (cbv; split; congruence).
  destruct (chip_commit d (LTC5599_OFFSI_REG + 0) (v0 + 128) Hh Hr2
              ltac:(apply u8_small; lia)) as (c1 & E1 & Hh1 & Hg1).
  assert (Ed1 : d1 = cached (LTC5599_OFFSI_REG + 0) (v0 + 128)
                       (sent [2 * (LTC5599_OFFSI_REG + 0); v0 + 128] 0 c1 d)).
  { subst d1 ch0. rewrite write_raw_offset_commit by (first [exact Hv0 | now left]).
    now rewrite E1. }
  assert (Hwf1 : shadow_wf (priv d1))
    by (rewrite Ed1; apply shadow_set_wf; exact Hwf).
  assert (Hh1' : healthy (spi d1)) by (rewrite Ed1; exact Hh1).
  destruct (chip_commit d1 (LTC5599_OFFSI_REG + 1) (v1 + 128) Hh1' Hr3
              ltac:(apply u8_small; lia)) as (c2 & E2 & Hh2 & Hg2).
  assert (Ed2 : d2 = cached (LTC5599_OFFSI_REG + 1) (v1 + 128)
                       (sent [2 * (LTC5599_OFFSI_REG + 1); v1 + 128] 0 c2 d1)).
  { subst d2 ch1. rewrite write_raw_offset_commit by (first [exact Hv1 | now right]).
    now rewrite E2. }
  assert (Hwf2 : shadow_wf (priv d2))
    by (rewrite Ed2; apply shadow_set_wf; exact Hwf1).
  assert (Hh2' : healthy (spi d2)) by (rewrite Ed2; exact Hh2).
  assert (Hreg1 : regs (spi d2) (LTC5599_OFFSI_REG + 1) = v1 + 128).
  { rewrite Ed2. cbn [spi cached sent]. rewrite Hg2. cbn beta.
    now rewrite Z.eqb_refl. }
  assert (Hreg0 : regs (spi d2) (LTC5599_OFFSI_REG + 0) = v0 + 128).
  { rewrite Ed2. cbn [spi cached sent]. rewrite Hg2. cbn beta.
    change (LTC5599_OFFSI_REG + 0 =? LTC5599_OFFSI_REG + 1) with false. cbv iota.
    rewrite Ed1. cbn [spi cached sent]. rewrite Hg1. cbn beta.
    now rewrite Z.eqb_refl. }
  split; [|split].
  - subst ch0. rewrite chip_read_offset by (first [now left | assumption]).
    rewrite Hreg0. rewrite u8_small by lia.
    replace (v0 + 128 - 128) with v0 by lia. now rewrite s32_small by lia.
  - subst ch1. rewrite chip_read_offset by (first [now right | assumption]).
    rewrite Hreg1. rewrite u8_small by lia.
    replace (v1 + 128 - 128) with v1 by lia. now rewrite s32_small by lia.
  - intros d' chan chan' val info Hinfo.
    destruct info; try contradiction; split; reflexivity.
Qed.

Lemma offsets_are_per_channel_witness :
  (-127 <= 100 <= 127) /\ (-127 <= -50 <= 127) /\
  healthy (spi (probed [])) /\ shadow_wf (priv (probed [])) /\
  (let d1 := (ltc5599_write_raw (LTC5599_CHANNEL 0) 100 0 IIO_CHAN_INFO_OFFSET
                (probed [])).2 in
   let d2 := (ltc5599_write_raw (LTC5599_CHANNEL 1) (-50) 0 IIO_CHAN_INFO_OFFSET
                d1).2 in
   (ltc5599_read_raw (LTC5599_CHANNEL 0) 0 0 IIO_CHAN_INFO_OFFSET d2).1
   = (IIO_VAL_INT, (100, 0))
   /\ (ltc5599_read_raw (LTC5599_CHANNEL 1) 0 0 IIO_CHAN_INFO_OFFSET d2).1
      = (IIO_VAL_INT, (-50, 0))).
Proof.
  assert (Hv0 : -127 <= 100 <= 127) by (split; discriminate).
  assert (Hv1 : -127 <= -50 <= 127) by (split; discriminate).
  assert (Hh : healthy (spi (probed []))) by constructor.
  assert (Hwf : shadow_wf (priv (probed []))) by reflexivity.
  split; [exact Hv0|]. split; [exact Hv1|]. split; [exact Hh|]. split; [exact Hwf|].
  pose proof (offsets_are_per_channel (probed []) 100 (-50) 0 0 0 Hv0 Hv1 Hh Hwf)
    as (H0 & H1 & _).
  split; [exact H0 | exact H1].
Defined.

(** ** A successful write is what the cache holds *)

Lemma all_ok_one_inv (f : list Z) (s : Z) (txs : list (list Z)) :
  [(f, s)] = map (fun tx : list Z => (tx, 0)) txs -> txs = [f] /\ s = 0.
Proof.
  destruct txs as [|t [|t2 rest]]; cbn; try discriminate.
  intros E. injection E as -> ->. split; reflexivity.
Qed.

Lemma all_ok_two_inv (f1 f2 : list Z) (s1 s2 : Z) (txs : list (list Z)) :
  [(f1, s1); (f2, s2)] = map (fun tx : list Z => (tx, 0)) txs ->
  txs = [f1; f2] /\ s1 = 0 /\ s2 = 0.
Proof.
  destruct txs as [|t [|t2 [|t3 rest]]]; cbn; try discriminate.
  intros E. injection E as -> -> -> ->. repeat split.
Qed.

Lemma write_frame_inj (reg tmp reg' byte : Z) :
  0 <= reg < 128 -> write_frame reg tmp = [2 * reg'; byte] ->
  reg' = reg /\ byte = u8 tmp.
Proof.
  intros Hr E. rewrite write_frame_any, (Z.mod_small reg) in E by lia.
  injection E as E1 E2. split; [lia | now rewrite <- E2].
Qed.

Section WriteThrough.

Context {B : Type} `{SpiBus B}.

Lemma commit_write_through (reg tmp : Z) (d : iio_dev B) (txs : list (list Z)) :
  shadow_wf (priv d) -> 0 <= reg < 32 ->
  wire (commit reg tmp d).2 = wire d ++ map (fun tx => (tx, 0)) txs ->
  (commit reg tmp d).1 = 0 /\
  forall reg' byte, In [2 * reg'; byte] txs ->
    shadow_get (priv (commit reg tmp d).2) reg' = byte.
Proof.
  intros Hwf Hr Hw.
  destruct (spi_sync (spi d) (write_frame reg tmp)) as [[s rx] b'] eqn:E.
  rewrite (commit_eq _ _ _ _ _ _ E) in *.
  destruct (failed s) eqn:F; cbn [fst snd] in *.
  - rewrite wire_sent in Hw. apply app_inv_head, all_ok_one_inv in Hw as [_ ->].
    discriminate F.
  - rewrite wire_cached, wire_sent in Hw.
    apply app_inv_head, all_ok_one_inv in Hw as [-> _].
    split; [reflexivity|]. intros reg' byte [Hin | []].
    apply write_frame_inj in Hin as [-> ->]; [|lia].
    apply (shadow_get_set_eq (priv (sent (write_frame reg tmp) s b' d)));
      assumption.
Qed.

End WriteThrough.

(** X12. The cache is written through on success: if an attribute write
    issued transfers and all of them succeeded, it returns 0 and, for every
    frame [2 * reg; byte] it sent, the shadow register [reg] now holds
    [byte]. *)
Theorem successful_write_is_cached {B : Type} `{SpiBus B}
    (d : iio_dev B) (chan : iio_chan_spec) (val val2 : Z)
    (info : iio_chan_info_enum) (txs : list (list Z)) :
  shadow_wf (priv d) ->
  txs <> [] ->
  let w := ltc5599_write_raw chan val val2 info d in
  wire w.2 = wire d ++ map (fun tx => (tx, 0)) txs ->
  w.1 = 0 /\
  forall reg byte, In [2 * reg; byte] txs -> shadow_get (priv w.2) reg = byte.
Proof.
  intros Hwf Hne w Hw.
  assert (Hnil : wire w.2 = wire d -> False).
  { intros E. rewrite E in Hw. rewrite <- (app_nil_r (wire d)) in Hw at 1.
    apply app_inv_head, all_ok_nil in Hw. contradiction. }
  assert (Hu : 0 <= u32 (address chan)) by (apply Z.mod_pos_bound; lia).
  destruct info; subst w; unfold ltc5599_write_raw in *.
  - destruct ((val <? -127) || (val >? 127)); [exfalso; now apply Hnil|].
    destruct (Z.le_gt_cases (u32 (address chan)) 1) as [Hle|Hgt].
    + rewrite ltc5599_write_offset_commit in Hw |- * by exact Hle.
      apply (commit_write_through _ _ d txs Hwf); [unfold LTC5599_OFFSI_REG; lia|].
      exact Hw.
    + exfalso. apply Hnil. unfold ltc5599_write_offset.
      destruct (Z.gtb_spec (u32 (address chan)) 1); [reflexivity | lia].
  - destruct ((val <? 30000000) || (val >? 1300000000)); [exfalso; now apply Hnil|].
    rewrite ltc5599_write_freq_commit in Hw |- *.
    apply (commit_write_through _ _ d txs Hwf); [unfold LTC5599_FREQ_REG; lia|].
    exact Hw.
  - destruct (val >? 0); [exfalso; now apply Hnil|].
    rewrite ltc5599_write_gain_commit in Hw |- *.
    apply (commit_write_through _ _ d txs Hwf); [unfold LTC5599_GAIN_REG; lia|].
    exact Hw.
  - destruct ((val <? -127) || (val >? 127)); [exfalso; now apply Hnil|].
    rewrite ltc5599_write_iqgainratio_commit in Hw |- *.
    apply (commit_write_through _ _ d txs Hwf);
      [unfold LTC5599_IQ_GAINRAT_REG; lia|].
    exact Hw.
  - destruct ((val <? -240) || (val >? 239)); [exfalso; now apply Hnil|].
    destruct (ltc5599_write_iqphasebalance_cases d val)
      as [(s & b1 & Hs & E) | [(s & b1 & b2 & Hs & E) | (b1 & b2 & E)]];
      rewrite E in Hw |- *; cbn [fst snd] in Hw |- *.
    + rewrite wire_sent in Hw. apply app_inv_head, all_ok_one_inv in Hw as [_ ->].
      contradiction.
    + rewrite wire_sent, wire_cached, wire_sent, <- app_assoc in Hw.
      apply app_inv_head in Hw. cbn in Hw.
      apply all_ok_two_inv in Hw as (_ & _ & ->). contradiction.
    + rewrite wire_cached, wire_sent, wire_cached, wire_sent, <- app_assoc in Hw.
      apply app_inv_head in Hw. cbn in Hw. apply all_ok_two_inv in Hw as (-> & _).
      split; [reflexivity|]. intros reg byte [Hin | [Hin | []]].
      * apply write_frame_inj in Hin as [-> ->];
          [|unfold LTC5599_IQ_PHASEBAL_REG; lia].
        unfold shadow_get. cbn [priv cached sent shadow_set shadowregs].
        rewrite list_lookup_insert_ne
          by (unfold LTC5599_IQ_PHASEBAL_REG, LTC5599_FREQ_REG; lia).
        rewrite list_lookup_insert_eq
          by (unfold shadow_wf in Hwf; rewrite Hwf;
              unfold LTC5599_IQ_PHASEBAL_REG; lia).
        reflexivity.
      * apply write_frame_inj in Hin as [-> ->]; [|unfold LTC5599_FREQ_REG; lia].
        unfold shadow_get. cbn [priv cached sent shadow_set shadowregs].
        rewrite list_lookup_insert_eq
          by (rewrite length_insert; unfold shadow_wf in Hwf; rewrite Hwf;
              unfold LTC5599_FREQ_REG; lia).
        reflexivity.
  - exfalso. now apply Hnil.
Qed.

Lemma successful_write_is_cached_witness :
  shadow_wf (priv (probed [])) /\ [[10; 60]; [0; 46]] <> [] /\
  (let w := ltc5599_write_raw (LTC5599_CHANNEL 0) (-20) 0 IIO_CHAN_INFO_PHASE
              (probed []) in
   w.1 = 0 /\
   shadow_get (priv w.2) 5 = 60 /\ shadow_get (priv w.2) 0 = 46).
Proof.
  assert (Hwf : shadow_wf (priv (probed []))) by reflexivity.
  assert (Hne : [[10; 60]; [0; 46]] <> []) by discriminate.
  split; [exact Hwf|]. split; [exact Hne|].
  pose proof (successful_write_is_cached (probed []) (LTC5599_CHANNEL 0) (-20) 0
                IIO_CHAN_INFO_PHASE [[10; 60]; [0; 46]] Hwf Hne eq_refl)
    as [H0 Hc].
  split; [exact H0|]. split.
  - apply (Hc 5 60). left. reflexivity.
  - apply (Hc 0 46). right. left. reflexivity.
Defined.

(** ** Priming, and the shape of the cache afterwards *)

Lemma cache_ok_set (st : ltc5599) (i v : Z) :
  cache_ok st -> cache_ok (shadow_set i v st).
Proof.
  intros [Hl Hb]. split; cbn [shadow_set shadowregs].
  - now rewrite length_insert.
  - apply Forall_insert; [exact Hb | apply u8_range].
Qed.

Section CacheShape.

Context {B : Type} `{SpiBus B}.

Lemma cache_ok_cached_sent (d : iio_dev B) (reg v : Z) buf s b' :
  cache_ok (priv d) -> cache_ok (priv (cached reg v (sent buf s b' d))).
Proof. intros Hc. apply (cache_ok_set (priv (sent buf s b' d))). exact Hc. Qed.

Lemma cache_ok_sent (d : iio_dev B) buf s b' :
  cache_ok (priv d) -> cache_ok (priv (sent buf s b' d)).
Proof. intros Hc. exact Hc. Qed.

Lemma commit_cache_ok (reg tmp : Z) (d : iio_dev B) :
  cache_ok (priv d) -> cache_ok (priv (commit reg tmp d).2).
Proof.
  intros Hc.
  destruct (spi_sync (spi d) (write_frame reg tmp)) as [[s rx] b'] eqn:E.
  rewrite (commit_eq _ _ _ _ _ _ E). destruct (failed s); cbn [snd].
  - exact Hc.
  - now apply cache_ok_cached_sent.
Qed.

Lemma fetch_cache_ok (reg val : Z) (decode : Z -> Z) (d : iio_dev B) :
  cache_ok (priv d) -> cache_ok (priv (fetch reg val decode d).2).
Proof.
  intros Hc.
  destruct (fetch_cases reg val decode d)
    as [(s & b1 & Hs & ->) | (b1 & byte & Hb & ->)]; cbn [snd].
  - exact Hc.
  - now apply cache_ok_cached_sent.
Qed.

Lemma write_raw_cache_ok (d : iio_dev B) (chan : iio_chan_spec)
    (val val2 : Z) (info : iio_chan_info_enum) :
  cache_ok (priv d) -> cache_ok (priv (ltc5599_write_raw chan val val2 info d).2).
Proof.
  intros Hc. destruct info; unfold ltc5599_write_raw.
  - destruct ((val <? -127) || (val >? 127)); [exact Hc|].
    unfold ltc5599_write_offset.
    destruct (u32 (address chan) >? 1); [exact Hc|]. now apply commit_cache_ok.
  - destruct ((val <? 30000000) || (val >? 1300000000)); [exact Hc|].
    rewrite ltc5599_write_freq_commit. now apply commit_cache_ok.
  - destruct (val >? 0); [exact Hc|].
    rewrite ltc5599_write_gain_commit. now apply commit_cache_ok.
  - destruct ((val <? -127) || (val >? 127)); [exact Hc|].
    rewrite ltc5599_write_iqgainratio_commit. now apply commit_cache_ok.
  - destruct ((val <? -240) || (val >? 239)); [exact Hc|].
    rewrite ltc5599_write_iqphasebalance_commit. unfold bind.
    pose proof (commit_cache_ok LTC5599_IQ_PHASEBAL_REG (phase_byte val) d Hc) as H1.
    destruct (commit LTC5599_IQ_PHASEBAL_REG (phase_byte val) d) as [r d1].
    cbn [snd] in H1. destruct (failed r); [exact H1|]. now apply commit_cache_ok.
  - exact Hc.
Qed.

Lemma read_raw_cache_ok (d : iio_dev B) (chan : iio_chan_spec)
    (val val2 : Z) (info : iio_chan_info_enum) :
  cache_ok (priv d) -> cache_ok (priv (ltc5599_read_raw chan val val2 info d).2).
Proof.
  intros Hc.
  assert (Hwrap : forall (m : M B (Z * Z)) (k1 k2 : Z * Z -> Z * (Z * Z)),
            cache_ok (priv (m d).2) ->
            cache_ok (priv (let '(a, d') := m d in
                            (if failed a.1 then ret (k1 a) else ret (k2 a)) d').2)).
  { intros m k1 k2 Hm. destruct (m d) as [a d']. cbn [snd] in Hm.
    destruct (failed a.1); exact Hm. }
  destruct info; unfold ltc5599_read_raw, bind.
  - apply (Hwrap (ltc5599_read_offset (u32 (address chan)) val)
             (fun r => (r.1, (r.2, val2))) (fun r => (IIO_VAL_INT, (r.2, val2)))).
    unfold ltc5599_read_offset.
    destruct (u32 (address chan) >? 1); [exact Hc|].
    now apply (fetch_cache_ok _ val (fun x => s32 (x - 128))).
  - apply (Hwrap (ltc5599_read_freq 0)
             (fun r => (r.1, (val, val2)))
             (fun r => (IIO_VAL_INT, (freq_poly r.2, val2)))).
    rewrite ltc5599_read_freq_fetch. now apply fetch_cache_ok.
  - apply (Hwrap (ltc5599_read_gain 0)
             (fun r => (r.1, (val, val2)))
             (fun r => (IIO_VAL_INT_PLUS_MICRO_DB, (s32 (-1 * s32 r.2), 0)))).
    rewrite ltc5599_read_gain_fetch. now apply fetch_cache_ok.
  - apply (Hwrap (ltc5599_read_iqgainratio val)
             (fun r => (r.1, (r.2, val2))) (fun r => (IIO_VAL_INT, (r.2, val2)))).
    rewrite ltc5599_read_iqgainratio_fetch. now apply fetch_cache_ok.
  - apply (Hwrap (ltc5599_read_iqphasebalance val)
             (fun r => (r.1, (r.2, val2))) (fun r => (IIO_VAL_INT, (r.2, val2)))).
    destruct (ltc5599_read_iqphasebalance_cases val d)
      as [(s & b1 & Hs & ->) | [(s & b1 & b2 & byte0 & Hs & Hb & ->)
         | (b1 & b2 & byte0 & byte1 & Hb0 & Hb1 & ->)]]; cbn [snd].
    + exact Hc.
    + apply cache_ok_sent. now apply cache_ok_cached_sent.
    + apply cache_ok_cached_sent. now apply cache_ok_cached_sent.
  - exact Hc.
Qed.

Lemma session_cache_ok (ops : list access) (d : iio_dev B) :
  cache_ok (priv d) -> cache_ok (priv (session ops d)).
Proof.
  unfold session. revert d. induction ops as [|a ops IH]; intros d Hc.
  - exact Hc.
  - cbn [fold_left]. apply IH. destruct a as [chan val val2 info | chan val val2 info].
    + now apply write_raw_cache_ok.
    + now apply read_raw_cache_ok.
Qed.

End CacheShape.

(** X11. Priming needs nothing and promises a shape that lasts.  Whatever
    the device held before, even a malformed array,
    [ltc5599_fill_shadowregs] returns 0, issues no transfer, leaves the
    transfer buffer alone and sets the shadow array to the nine reset bytes
    followed by zeros; [ltc5599_init_registers] changes nothing.  From there
    on, after any run of attribute reads and writes on any bus, the array
    still has 32 entries and each of them is a byte. *)
Theorem primed_cache_shape {B : Type} `{SpiBus B}
    (d : iio_dev B) (ops : list access) :
  let p := ltc5599_fill_shadowregs d in
  p.1 = 0
  /\ spi p.2 = spi d /\ wire p.2 = wire d /\ data (priv p.2) = data (priv d)
  /\ shadowregs (priv p.2)
     = [0x2E; 0x84; 0x80; 0x80; 0x80; 0x10; 0x50; 0x06] ++ replicate 24 0
  /\ ltc5599_init_registers p.2 = (0, p.2)
  /\ cache_ok (priv (session ops p.2)).
Proof.
  intros p.
  assert (Hs : shadowregs (priv p.2)
               = [0x2E; 0x84; 0x80; 0x80; 0x80; 0x10; 0x50; 0x06] ++ replicate 24 0)
    by reflexivity.
  repeat (split; [reflexivity|]).
  apply session_cache_ok. split; rewrite Hs.
  - reflexivity.
  - repeat constructor; discriminate.
Qed.
